(** * EdgeSAM inference orchestration (src/src/edgeSam.cpp): model and properties

    A shallow embedding of [struct SamModel] and of the [Sam] facade:
    the constructor, [getInputSize], [loadImage] and [getMask].
    The ONNX Runtime sessions and [cv::resize] are external; they are
    parameters of the development, and every call of a session's [Run]
    is recorded in a log so that "the decoder is invoked with ..." is a
    statement about that log. *)

From Stdlib Require Import ZArith List Bool Lia.
From Stdlib Require Import Floats.SpecFloat.
From stdpp Require Import base list strings.

Local Open Scope Z_scope.

(* ===================================================================== *)
(** ** Machine integers *)

Module Int.

Definition INT_MIN : Z := - 2 ^ 31.
Definition INT_MAX : Z := 2 ^ 31 - 1.

(** Conversion of a wider integer ([int64_t], [size_t]) to [int]:
    reduction modulo 2^32 into the signed range. *)
Definition to_int (z : Z) : Z := (z + 2 ^ 31) mod 2 ^ 32 - 2 ^ 31.

Definition fits (z : Z) : Prop := INT_MIN <= z <= INT_MAX.

(** Conversion of an [int] to [size_t]: reduction modulo 2^64. *)
Definition to_size_t (z : Z) : Z := z mod 2 ^ 64.

End Int.

(* ===================================================================== *)
(** ** Single-precision floats

    [float] is IEEE binary32 and [double] binary64, both as
    [spec_float] values.  A [float] widened to [double] keeps its value,
    so the two share the representation; only narrowing rounds. *)

Module F32.

Definition float := spec_float.

Definition prec32 : Z := 24.
Definition emax32 : Z := 128.
Definition prec64 : Z := 53.
Definition emax64 : Z := 1024.

(** [(float) n] for an integer [n]. *)
Definition of_int (n : Z) : float := binary_normalize prec32 emax32 n 0 false.

(** An integer literal of type [double], as in [255.]. *)
Definition double_of_int (n : Z) : spec_float :=
  binary_normalize prec64 emax64 n 0 false.

(** [(float) d] for a [double] [d]: round to nearest even. *)
Definition of_double (d : spec_float) : float :=
  match d with
  | S754_finite s m e => binary_round prec32 emax32 s m e
  | _ => d
  end.

(** [unsigned char] pixel value converted to [float]. *)
Definition of_uchar (b : Byte.byte) : float := of_int (Z.of_N (Byte.to_N b)).

Definition zero : float := S754_zero false.

(** [v /= 255.]: the division is carried out in [double] and the
    quotient is narrowed back to [float]. *)
Definition div255 (v : float) : float :=
  of_double (SFdiv prec64 emax64 v (double_of_int 255)).

(** [x > 0] for a [float] [x]; false for NaN. *)
Definition gt0 (x : float) : bool := SFltb (of_int 0) x.

Definition leb (x y : float) : bool := SFleb x y.

(** The value of a finite float as an exact fraction [num / 2^sh]. *)
Definition to_frac (x : float) : option (Z * Z) :=
  match x with
  | S754_zero _ => Some (0, 0)
  | S754_finite s m e =>
      let n := if s then Z.neg m else Z.pos m in
      if 0 <=? e then Some (n * 2 ^ e, 0) else Some (n, - e)
  | _ => None
  end.

End F32.

(* ===================================================================== *)
(** ** Outcomes of a call

    A call either returns a value or stops: by undefined behaviour
    (an index past the end of a buffer, a null session handle, a loop
    counter leaving [int]) or by an exception that no function of this
    file catches. *)

Inductive Buffer :=
  | inputShapePre_buf | outputShapePre_buf | image_buf | inputTensorValuesFloat_buf
  | outputTensorsSam_buf | maskShape_buf | outputMaskImage_buf | outputMaskSam_buf
  | scores_buf.

Inductive SessionId := Pre | Sam_.

Inductive Fault :=
  | OutOfBounds (b : Buffer)
  | NullSession (s : SessionId)
  | IntOverflow
  | OrtException
  | CvException
  | BadAlloc.

Inductive Result (A : Type) :=
  | Val (a : A)
  | Raise (f : Fault).
Arguments Val {A} a.
Arguments Raise {A} f.

#[export] Instance Result_ret : MRet Result := fun A a => Val a.
#[export] Instance Result_bind : MBind Result := fun A B f r =>
  match r with
  | Val a => f a
  | Raise e => Raise e
  end.

(** Computations over a mutable state [St]; the state survives a fault. *)
Definition M (St A : Type) : Type := St -> Result A * St.

#[export] Instance M_ret St : MRet (M St) := fun A a s => (Val a, s).
#[export] Instance M_bind St : MBind (M St) := fun A B f m s =>
  match m s with
  | (Val a, s') => f a s'
  | (Raise e, s') => (Raise e, s')
  end.

Definition lift {St A} (r : Result A) : M St A := fun s => (r, s).
Definition get {St} : M St St := fun s => (Val s, s).
Definition modify {St} (f : St -> St) : M St unit := fun s => (Val tt, f s).

(* ===================================================================== *)
(** ** [std::vector] *)

Module Vec.

(** [v[i]] read; no bounds check in the source, so a miss is a fault. *)
Definition at_ {A} (b : Buffer) (v : list A) (i : Z) : Result A :=
  if decide (0 <= i) then
    match v !! Z.to_nat i with
    | Some x => Val x
    | None => Raise (OutOfBounds b)
    end
  else Raise (OutOfBounds b).

(** [v[i] = x]. *)
Definition set {A} (b : Buffer) (v : list A) (i : Z) (x : A) : Result (list A) :=
  if decide (0 <= i < Z.of_nat (length v)) then Val (<[Z.to_nat i := x]> v)
  else Raise (OutOfBounds b).

Definition push_back {A} (v : list A) (x : A) : list A := v ++ [x].

Definition size {A} (v : list A) : Z := Z.of_nat (length v).

(** [std::vector<float>(n)] and [resize(n)] on an empty vector: [n]
    zeros.  [n] arrives as a [size_t]; a negative [int64_t] becomes a
    request no allocator serves. *)
Definition make (n : Z) : Result (list F32.float) :=
  if decide (0 <= n) then Val (replicate (Z.to_nat n) F32.zero)
  else Raise BadAlloc.

End Vec.

(** [for (int i = 0; i < hi; i++) body], threading the locals [s]. *)
Fixpoint for_range {S} (n : nat) (i : Z) (body : Z -> S -> Result S) (s : S) : Result S :=
  match n with
  | O => Val s
  | S n' => s' ← body i s; for_range n' (i + 1) body s'
  end.

(** The counter is an [int]: a bound above [INT_MAX] is never reached,
    the increment overflows first. *)
Definition for_lt {S} (hi : Z) (body : Z -> S -> Result S) (s : S) : Result S :=
  if decide (hi <= Int.INT_MAX) then for_range (Z.to_nat hi) 0 body s
  else Raise IntOverflow.

(* ===================================================================== *)
(** ** OpenCV values *)

Module Cv.

Record Point := { x : Z; y : Z }.
Record Size := { width : Z; height : Z }.
Record Rect := { rx : Z; ry : Z; rwidth : Z; rheight : Z }.

#[global] Instance Size_eq_dec : EqDecision Size.
Proof. solve_decision. Defined.

(** [cv::Size(a, b)] with [int64_t] arguments narrows both to [int]. *)
Definition mkSize (w h : Z) : Size :=
  {| width := Int.to_int w; height := Int.to_int h |}.

(** [Rect::empty()]. *)
Definition empty (r : Rect) : bool := (rwidth r <=? 0) || (rheight r <=? 0).

(** [Rect::br()]: the sums are [int] additions. *)
Definition br (r : Rect) : Point :=
  {| x := Int.to_int (rx r + rwidth r); y := Int.to_int (ry r + rheight r) |}.

(** The default [cv::Rect], written [{}] in the source. *)
Definition Rect0 : Rect := {| rx := 0; ry := 0; rwidth := 0; rheight := 0 |}.

(** An 8-bit unsigned matrix with interleaved channels and contiguous
    rows ([CV_8UC1] when [channels = 1], [CV_8UC3] when 3). *)
Record Mat := { channels : Z; rows : Z; cols : Z; data : list Byte.byte }.

(** A [CV_32FC1] matrix. *)
Record MatF := { frows : Z; fcols : Z; fdata : list F32.float }.

Definition size (m : Mat) : Size := {| width := cols m; height := rows m |}.
Definition fsize (m : MatF) : Size := {| width := fcols m; height := frows m |}.

(** [cv::Mat()]: no rows, no columns, type 0, which is [CV_8UC1]. *)
Definition Mat0 : Mat := {| channels := 1; rows := 0; cols := 0; data := [] |}.

Definition is_8UC1 (m : Mat) : bool := channels m =? 1.

(** [cv::Mat(r, c, CV_8UC1)].  The pixels are uninitialised in the
    source; every one is written before it is read, zero stands for
    the unknown content. *)
Definition blank_8UC1 (r c : Z) : Mat :=
  {| channels := 1; rows := r; cols := c; data := replicate (Z.to_nat (r * c)) Byte.x00 |}.

Definition create_8UC1 (r c : Z) : Result Mat :=
  if decide (0 <= r /\ 0 <= c) then Val (blank_8UC1 r c) else Raise CvException.

(** The buffer holds exactly the rows the header announces. *)
Definition continuous (m : Mat) : Prop :=
  Z.of_nat (length (data m)) = rows m * cols m * channels m.

(** [m.at<cv::Vec3b>(i, j)[c]]. *)
Definition at_Vec3b (m : Mat) (i j c : Z) : Result Byte.byte :=
  Vec.at_ image_buf (data m) ((i * cols m + j) * 3 + c).

(** [m.at<uint8_t>(i, j) = v]. *)
Definition set_u8 (m : Mat) (i j : Z) (v : Byte.byte) : Result Mat :=
  d ← Vec.set outputMaskSam_buf (data m) (i * cols m + j) v;
  mret {| channels := channels m; rows := rows m; cols := cols m; data := d |}.

(** [m.at<float>(i, j)]. *)
Definition at_float (m : MatF) (i j : Z) : Result F32.float :=
  Vec.at_ outputMaskImage_buf (fdata m) (i * fcols m + j).

End Cv.

(* ===================================================================== *)
(** ** The ONNX Runtime boundary *)

Module Ort.

(** What [Ort::Value::CreateTensor<float>] is given: the buffer it
    aliases, the element count and the shape. *)
Record Tensor := { t_data : list F32.float; t_count : Z; t_shape : list Z }.

(** What a session reports about its model: [GetInputCount],
    [GetOutputCount] and the declared shapes of input 0 and output 0. *)
Record ModelInfo := {
  GetInputCount : Z;
  GetOutputCount : Z;
  InputShape0 : list Z;
  OutputShape0 : list Z
}.

(** An open session: the file it was created from and its model. *)
Record Session := { path : string; info : ModelInfo }.

(** One call of [Session::Run]. *)
Record RunCall := {
  session : Session;
  input_names : list string;
  inputs : list Tensor;
  output_names : list string;
  outputs : list Tensor   (* caller-allocated outputs; empty when the runtime allocates *)
}.

End Ort.

(** Everything outside this translation unit that the code calls. *)
Class Runtime := {
  (** [std::ifstream f(p); f.good()] *)
  file_good : string -> bool;
  (** [Ort::Session(env, path, options)]; [None] when it throws *)
  open_session : string -> option Ort.ModelInfo;
  (** does [CreateTensor] accept these arguments (it throws otherwise) *)
  tensor_ok : Ort.Tensor -> bool;
  (** [Run] with a caller-allocated output: whether it returned, and
      what the output buffer holds afterwards *)
  run_pre : Ort.RunCall -> bool * list F32.float;
  (** [Run] returning its outputs; [None] when it throws *)
  run_sam : Ort.RunCall -> option (list Ort.Tensor);
  (** [cv::resize(src, dst, dsize)]; [None] when it throws *)
  resize : Cv.MatF -> Cv.Size -> option Cv.MatF
}.

(** [Sam::Parameter]: the provider settings and the thread count are
    stored by its constructor and read nowhere. *)
Record Sam_Parameter := {
  models : string * string;     (* 0 - embedding, 1 - segmentation *)
  threadsNumber : Z
}.

(* ===================================================================== *)
(** ** [struct SamModel] *)

Record SamModel := {
  sessionPre : option Ort.Session;
  sessionSam : option Ort.Session;
  inputShapePre : list Z;
  outputShapePre : list Z;
  outputTensorValuesPre : list F32.float;   (* the embedding cache *)
  bModelLoaded : bool
}.

(** The object and the calls made on the runtime so far. *)
Record World := { self : SamModel; ort_log : list Ort.RunCall }.

Module Model.
Section WithRuntime.
Context {rt : Runtime}.

Definition inputNamesEdgeSam : list string :=
  ["image_embeddings"; "point_coords"; "point_labels"]%string.
Definition outputNamesEdgeSam : list string := ["scores"; "masks"]%string.

(** The members as their in-class initialisers leave them. *)
Definition initial : SamModel :=
  {| sessionPre := None; sessionSam := None; inputShapePre := []; outputShapePre := [];
     outputTensorValuesPre := []; bModelLoaded := false |}.

(** The first loop of the constructor: are all model files there. *)
Fixpoint files_found (ps : list string) : bool :=
  match ps with
  | [] => true
  | p :: ps' => if file_good p then files_found ps' else false
  end.

(** [SamModel::SamModel(param)].  An exception of a session
    constructor leaves the constructor, and no object exists. *)
Definition new (param : Sam_Parameter) : Result SamModel :=
  if negb (files_found [fst (models param); snd (models param)]) then Val initial
  else
    let wpreModelPath := fst (models param) in
    let wsamModelPath := snd (models param) in
    match open_session wpreModelPath with
    | None => Raise OrtException
    | Some pre =>
      let sPre := Some {| Ort.path := wpreModelPath; Ort.info := pre |} in
      if negb (Ort.GetInputCount pre =? 1) || negb (Ort.GetOutputCount pre =? 1) then
        Val {| sessionPre := sPre; sessionSam := None; inputShapePre := [];
               outputShapePre := []; outputTensorValuesPre := []; bModelLoaded := false |}
      else
        match open_session wsamModelPath with
        | None => Raise OrtException
        | Some sam =>
          let sSam := Some {| Ort.path := wsamModelPath; Ort.info := sam |} in
          if negb (Ort.GetInputCount sam =? 3) then
            Val {| sessionPre := sPre; sessionSam := sSam; inputShapePre := [];
                   outputShapePre := []; outputTensorValuesPre := [];
                   bModelLoaded := false |}
          else
            let ishape := Ort.InputShape0 pre in
            let oshape := Ort.OutputShape0 pre in
            if negb (Vec.size ishape =? 4) || negb (Vec.size oshape =? 4) then
              Val {| sessionPre := sPre; sessionSam := sSam; inputShapePre := ishape;
                     outputShapePre := oshape; outputTensorValuesPre := [];
                     bModelLoaded := false |}
            else
              Val {| sessionPre := sPre; sessionSam := sSam; inputShapePre := ishape;
                     outputShapePre := oshape; outputTensorValuesPre := [];
                     bModelLoaded := true |}
        end
    end.

(** [SamModel::getInputSize() const]. *)
Definition getInputSize (m : SamModel) : Result Cv.Size :=
  if negb (bModelLoaded m) then Val {| Cv.width := 0; Cv.height := 0 |}
  else
    w ← Vec.at_ inputShapePre_buf (inputShapePre m) 3;
    h ← Vec.at_ inputShapePre_buf (inputShapePre m) 2;
    mret (Cv.mkSize w h).

(** [Ort::Value::CreateTensor<float>(memoryInfo, data, count, shape, rank)]. *)
Definition CreateTensor (d : list F32.float) (count : Z) (shape : list Z)
  : Result Ort.Tensor :=
  let t := {| Ort.t_data := d; Ort.t_count := count; Ort.t_shape := shape |} in
  if tensor_ok t then Val t else Raise OrtException.

Definition set_cache (m : SamModel) (v : list F32.float) : SamModel :=
  {| sessionPre := sessionPre m; sessionSam := sessionSam m;
     inputShapePre := inputShapePre m; outputShapePre := outputShapePre m;
     outputTensorValuesPre := v; bModelLoaded := bModelLoaded m |}.

(** The arguments of the [Run] call of [loadImage]. *)
Definition pre_call (s : Ort.Session) (input output : Ort.Tensor) : Ort.RunCall :=
  {| Ort.session := s; Ort.input_names := ["image"%string]; Ort.inputs := [input];
     Ort.output_names := ["image_embeddings"%string]; Ort.outputs := [output] |}.

(** [sessionPre->Run(...)] writing into the tensor that aliases
    [outputTensorValuesPre]. *)
Definition Run_pre (input output : Ort.Tensor) : M World unit := fun w =>
  match sessionPre (self w) with
  | None => (Raise (NullSession Pre), w)
  | Some s =>
    let call := pre_call s input output in
    let '(ok, buf) := run_pre call in
    let w' := {| self := set_cache (self w) buf; ort_log := ort_log w ++ [call] |} in
    (if ok then Val tt else Raise OrtException, w')
  end.

(** The body of the two nested loops of [loadImage] at pixel [(i, j)]. *)
Definition store_pixel (image : Cv.Mat) (H W i j : Z) (v : list F32.float)
  : Result (list F32.float) :=
  c2 ← Cv.at_Vec3b image i j 2;
  v ← Vec.set inputTensorValuesFloat_buf v (i * W + j) (F32.of_uchar c2);
  c1 ← Cv.at_Vec3b image i j 1;
  v ← Vec.set inputTensorValuesFloat_buf v (H * W + i * W + j) (F32.of_uchar c1);
  c0 ← Cv.at_Vec3b image i j 0;
  Vec.set inputTensorValuesFloat_buf v (2 * H * W + i * W + j) (F32.of_uchar c0).

(** The tensor values [loadImage] builds from an accepted image. *)
Definition preprocess (shape : list Z) (image : Cv.Mat) : Result (list F32.float) :=
  n0 ← Vec.at_ inputShapePre_buf shape 0;
  n1 ← Vec.at_ inputShapePre_buf shape 1;
  H ← Vec.at_ inputShapePre_buf shape 2;
  W ← Vec.at_ inputShapePre_buf shape 3;
  v ← Vec.make (n0 * n1 * H * W);
  v ← for_lt H (fun i => for_lt W (fun j => store_pixel image H W i j)) v;
  mret (fmap (M := list) F32.div255 v).

(** [SamModel::loadImage(image)]. *)
Definition loadImage (image : Cv.Mat) : M World bool :=
  w ← get;
  let m := self w in
  W ← lift (Vec.at_ inputShapePre_buf (inputShapePre m) 3);
  H ← lift (Vec.at_ inputShapePre_buf (inputShapePre m) 2);
  if negb (bool_decide (Cv.size image = Cv.mkSize W H)) then mret false
  else if negb (Cv.channels image =? 3) then mret false
  else
    inputTensorValuesFloat ← lift (preprocess (inputShapePre m) image);
    inputTensor ← lift (CreateTensor inputTensorValuesFloat
                          (Vec.size inputTensorValuesFloat) (inputShapePre m));
    o0 ← lift (Vec.at_ outputShapePre_buf (outputShapePre m) 0);
    o1 ← lift (Vec.at_ outputShapePre_buf (outputShapePre m) 1);
    o2 ← lift (Vec.at_ outputShapePre_buf (outputShapePre m) 2);
    o3 ← lift (Vec.at_ outputShapePre_buf (outputShapePre m) 3);
    buf ← lift (Vec.make (o0 * o1 * o2 * o3));
    _ ← modify (fun w => {| self := set_cache (self w) buf; ort_log := ort_log w |});
    outputTensor ← lift (CreateTensor buf (Vec.size buf) (outputShapePre m));
    _ ← Run_pre inputTensor outputTensor;
    mret true.

(** The three locals of [getMask] that are prepared for a mask prior,
    a has-mask flag and the image size (lines 109-113, 138-139). *)
Definition maskInputSize : Z := 256 * 256.
Definition maskInputValues : list F32.float :=
  replicate (Z.to_nat maskInputSize) F32.zero.
Definition hasMaskValues : list F32.float := [F32.of_int 0].
Definition orig_im_size_values (H W : Z) : list F32.float :=
  [F32.of_int H; F32.of_int W].
Definition maskInputShape : list Z := [1; 1; 256; 256].
Definition hasMaskInputShape : list Z := [1].
Definition origImSizeShape : list Z := [2].

(** One turn of the loops over [points] and [negativePoints]. *)
Definition push_point (label : Z) (acc : list F32.float * list F32.float) (p : Cv.Point)
  : list F32.float * list F32.float :=
  let '(inputPointValues, inputLabelValues) := acc in
  (Vec.push_back (Vec.push_back inputPointValues (F32.of_int (Cv.x p)))
     (F32.of_int (Cv.y p)),
   Vec.push_back inputLabelValues (F32.of_int label)).

(** Lines 115-134: the prompt as [(inputPointValues, inputLabelValues)]. *)
Definition encode (points negativePoints : list Cv.Point) (roi : Cv.Rect)
  : list F32.float * list F32.float :=
  let acc := fold_left (push_point 1) points ([], []) in
  let acc := fold_left (push_point 0) negativePoints acc in
  if negb (Cv.empty roi) then
    let '(inputPointValues, inputLabelValues) := acc in
    let inputPointValues := Vec.push_back inputPointValues (F32.of_int (Cv.rx roi)) in
    let inputPointValues := Vec.push_back inputPointValues (F32.of_int (Cv.ry roi)) in
    let inputLabelValues := Vec.push_back inputLabelValues (F32.of_int 2) in
    let inputPointValues :=
      Vec.push_back inputPointValues (F32.of_int (Cv.x (Cv.br roi))) in
    let inputPointValues :=
      Vec.push_back inputPointValues (F32.of_int (Cv.y (Cv.br roi))) in
    let inputLabelValues := Vec.push_back inputLabelValues (F32.of_int 3) in
    (inputPointValues, inputLabelValues)
  else acc.

(** The arguments of the [Run] call of [getMask]. *)
Definition sam_call (s : Ort.Session) (inputTensorsSam : list Ort.Tensor) : Ort.RunCall :=
  {| Ort.session := s; Ort.input_names := inputNamesEdgeSam;
     Ort.inputs := inputTensorsSam; Ort.output_names := outputNamesEdgeSam;
     Ort.outputs := [] |}.

(** [sessionSam->Run(...)], the runtime allocating the outputs. *)
Definition Run_sam (inputTensorsSam : list Ort.Tensor) : M World (list Ort.Tensor) :=
  fun w =>
  match sessionSam (self w) with
  | None => (Raise (NullSession Sam_), w)
  | Some s =>
    let call := sam_call s inputTensorsSam in
    let w' := {| self := self w; ort_log := ort_log w ++ [call] |} in
    match run_sam call with
    | Some outs => (Val outs, w')
    | None => (Raise OrtException, w')
    end
  end.

(** Lines 178-182: one pixel of the mask. *)
Definition threshold_pixel (outputMaskImage : Cv.MatF) (i j : Z) (outputMaskSam : Cv.Mat)
  : Result Cv.Mat :=
  v ← Cv.at_float outputMaskImage i j;
  Cv.set_u8 outputMaskSam i j (if F32.gt0 v then Byte.xff else Byte.x00).

(** Lines 174-176: the logits at the size of the mask. *)
Definition resize_to (outputMaskImage : Cv.MatF) (dsize : Cv.Size) : Result Cv.MatF :=
  if negb (bool_decide (Cv.fsize outputMaskImage = dsize)) then
    match resize outputMaskImage dsize with
    | Some resized => Val resized
    | None => Raise CvException
    end
  else Val outputMaskImage.

(** Lines 178-182: the two loops over the mask. *)
Definition threshold_loops (outputMaskImage : Cv.MatF) (outputMaskSam : Cv.Mat)
  : Result Cv.Mat :=
  for_lt (Cv.rows outputMaskSam)
    (fun i => for_lt (Cv.cols outputMaskSam)
                (fun j => threshold_pixel outputMaskImage i j))
    outputMaskSam.

(** Lines 168-184: from the decoder's outputs to the mask and the score. *)
Definition postprocess (outputTensorsSam : list Ort.Tensor) (outputMaskSam : Cv.Mat)
  : Result (Cv.Mat * F32.float) :=
  outputMask ← Vec.at_ outputTensorsSam_buf outputTensorsSam 1;
  let maskShape := Ort.t_shape outputMask in
  r ← Vec.at_ maskShape_buf maskShape 2;
  c ← Vec.at_ maskShape_buf maskShape 3;
  let outputMaskImage :=
    {| Cv.frows := Int.to_int r; Cv.fcols := Int.to_int c;
       Cv.fdata := Ort.t_data outputMask |} in
  outputMaskImage ← resize_to outputMaskImage (Cv.size outputMaskSam);
  outputMaskSam ← threshold_loops outputMaskImage outputMaskSam;
  scores ← Vec.at_ outputTensorsSam_buf outputTensorsSam 0;
  iouValue ← Vec.at_ scores_buf (Ort.t_data scores) 0;
  mret (outputMaskSam, iouValue).

(** [SamModel::getMask(points, negativePoints, roi, outputMaskSam, iouValue) const];
    the two reference parameters are returned.  [numPoints] is an [int];
    the element count of the coordinate tensor is the [int] product
    [2 * numPoints], and both counts become [size_t] at the call. *)
Definition getMask (points negativePoints : list Cv.Point) (roi : Cv.Rect)
    (outputMaskSam : Cv.Mat) : M World (Cv.Mat * F32.float) :=
  w ← get;
  let m := self w in
  H ← lift (Vec.at_ inputShapePre_buf (inputShapePre m) 2);
  W ← lift (Vec.at_ inputShapePre_buf (inputShapePre m) 3);
  let orig_im_size := orig_im_size_values H W in
  let '(inputPointValues, inputLabelValues) := encode points negativePoints roi in
  let numPoints := Int.to_int (Vec.size inputLabelValues) in
  let inputPointShape := [1; numPoints; 2] in
  let pointLabelsShape := [1; numPoints] in
  embedding ← lift (CreateTensor (outputTensorValuesPre m)
                      (Vec.size (outputTensorValuesPre m)) (outputShapePre m));
  coords ← lift (CreateTensor inputPointValues
                   (Int.to_size_t (Int.to_int (2 * numPoints))) inputPointShape);
  labels ← lift (CreateTensor inputLabelValues (Int.to_size_t numPoints) pointLabelsShape);
  let inputTensorsSam := [embedding; coords; labels] in
  outputMaskSam ←
    lift (if negb (Cv.is_8UC1 outputMaskSam)
             || negb (bool_decide (Cv.size outputMaskSam = Cv.mkSize W H))
          then Cv.create_8UC1 (Int.to_int H) (Int.to_int W)
          else Val outputMaskSam);
  outputTensorsSam ← Run_sam inputTensorsSam;
  lift (postprocess outputTensorsSam outputMaskSam).

End WithRuntime.
End Model.

(* ===================================================================== *)
(** ** [class Sam], the public facade *)

Module Sam.
Section WithRuntime.
Context {rt : Runtime}.

(** [Sam::Sam(param)]: a fresh object and an empty call log. *)
Definition new (param : Sam_Parameter) : Result World :=
  m ← Model.new param;
  mret {| self := m; ort_log := [] |}.

Definition getInputSize : M World Cv.Size :=
  w ← get; lift (Model.getInputSize (self w)).

Definition loadImage (image : Cv.Mat) : M World bool := Model.loadImage image.

(** [getMask(points, negativePoints, roi, iou)]; the score is what
    [*iou] receives when [iou] is not null. *)
Definition getMask (points negativePoints : list Cv.Point) (roi : Cv.Rect)
  : M World (Cv.Mat * F32.float) :=
  Model.getMask points negativePoints roi Cv.Mat0.

(** [getMask(points, negativePoints, iou)]. *)
Definition getMask_points (points negativePoints : list Cv.Point)
  : M World (Cv.Mat * F32.float) :=
  getMask points negativePoints Cv.Rect0.

(** [getMask(point, iou)]. *)
Definition getMask_point (point : Cv.Point) : M World (Cv.Mat * F32.float) :=
  getMask [point] [] Cv.Rect0.

End WithRuntime.
End Sam.

(** The faults that come from the members the constructor sets up: a
    shape vector read past its end, a null session handle. *)
Definition construction_fault (f : Fault) : bool :=
  match f with
  | OutOfBounds inputShapePre_buf | OutOfBounds outputShapePre_buf | NullSession _ => true
  | _ => false
  end.

(* ===================================================================== *)
(** ** The contract in the specification's words *)

Module Contract.

(** A point as two consecutive coordinate entries. *)
Definition point_coords (p : Cv.Point) : list F32.float :=
  [F32.of_int (Cv.x p); F32.of_int (Cv.y p)].

(** "positive points, then negative points, then (if present) box
    top-left corner, then box bottom-right corner"; the box is given
    as an option. *)
Definition coords (points negativePoints : list Cv.Point) (box : option Cv.Rect)
  : list F32.float :=
  flat_map point_coords points ++ flat_map point_coords negativePoints ++
  match box with
  | Some r => point_coords {| Cv.x := Cv.rx r; Cv.y := Cv.ry r |} ++ point_coords (Cv.br r)
  | None => []
  end.

(** "1 for positive point, 0 for negative point, 2 for box top-left,
    3 for box bottom-right". *)
Definition labels (points negativePoints : list Cv.Point) (box : option Cv.Rect)
  : list F32.float :=
  map (fun _ => F32.of_int 1) points ++ map (fun _ => F32.of_int 0) negativePoints ++
  match box with
  | Some _ => [F32.of_int 2; F32.of_int 3]
  | None => []
  end.

(** The box the code sees in a [cv::Rect] argument: none when the
    rectangle is empty. *)
Definition box_of (roi : Cv.Rect) : option Cv.Rect :=
  if Cv.empty roi then None else Some roi.

(** The decoder inputs as the specification lists them: embedding,
    coordinates, labels, an all-zero 256x256 mask prior, a zero
    has-mask flag and the image size. *)
Definition decoder_inputs (embedding coords labels : Ort.Tensor) (H W : Z)
  : list Ort.Tensor :=
  [embedding; coords; labels;
   {| Ort.t_data := replicate (Z.to_nat (256 * 256)) F32.zero;
      Ort.t_count := 256 * 256; Ort.t_shape := [1; 1; 256; 256] |};
   {| Ort.t_data := [F32.zero]; Ort.t_count := 1; Ort.t_shape := [1] |};
   {| Ort.t_data := [F32.of_int H; F32.of_int W]; Ort.t_count := 2;
      Ort.t_shape := [2] |}].

(** "logit > 0 => foreground": 255, otherwise 0. *)
Definition threshold (logit : F32.float) : Byte.byte :=
  if F32.gt0 logit then Byte.xff else Byte.x00.

End Contract.

(* ===================================================================== *)
(** ** Concrete runtimes and inputs for the examples *)

Module Fixture.

Definition encoder_path : string := "../models/edge_sam_3x_encoder.onnx".
Definition decoder_path : string := "../models/edge_sam_3x_decoder.onnx".
Definition rank5_path : string := "../models/encoder_rank5.onnx".

(** A 2x2 RGB encoder with a two-element embedding. *)
Definition encoder : Ort.ModelInfo :=
  {| Ort.GetInputCount := 1; Ort.GetOutputCount := 1;
     Ort.InputShape0 := [1; 3; 2; 2]; Ort.OutputShape0 := [1; 2; 1; 1] |}.

Definition decoder : Ort.ModelInfo :=
  {| Ort.GetInputCount := 3; Ort.GetOutputCount := 2;
     Ort.InputShape0 := [1; 2; 1; 1]; Ort.OutputShape0 := [1; 1] |}.

(** An encoder whose declared input has five dimensions. *)
Definition encoder_rank5 : Ort.ModelInfo :=
  {| Ort.GetInputCount := 1; Ort.GetOutputCount := 1;
     Ort.InputShape0 := [1; 3; 2; 2; 1]; Ort.OutputShape0 := [1; 2; 1; 1] |}.

Definition files (p : string) : option Ort.ModelInfo :=
  if String.eqb p encoder_path then Some encoder
  else if String.eqb p decoder_path then Some decoder
  else if String.eqb p rank5_path then Some encoder_rank5
  else None.

(** The argument check of [CreateTensor]: no negative dimension, and
    a buffer at least as long as the shape asks for. *)
Definition enough_space (t : Ort.Tensor) : bool :=
  forallb (Z.leb 0) (Ort.t_shape t) &&
  (fold_right Z.mul 1 (Ort.t_shape t) <=? Ort.t_count t).

(** The embedding: the first two input values, red plane first. *)
Definition embed (call : Ort.RunCall) : bool * list F32.float :=
  match Ort.inputs call with
  | t :: _ => (true, firstn 2 (Ort.t_data t))
  | [] => (false, [])
  end.

(** A 2x2 mask whose logits are -1, +1, the number of prompt labels
    minus one, and minus the length of the embedding; score 1. *)
Definition decode (call : Ort.RunCall) : option (list Ort.Tensor) :=
  match Ort.inputs call with
  | [e; _; l] =>
      Some [ {| Ort.t_data := [F32.of_int 1]; Ort.t_count := 1; Ort.t_shape := [1; 1] |};
             {| Ort.t_data := [F32.of_int (-1); F32.of_int 1;
                               F32.of_int (Vec.size (Ort.t_data l) - 1);
                               F32.of_int (- Vec.size (Ort.t_data e))];
                Ort.t_count := 4; Ort.t_shape := [1; 1; 2; 2] |} ]
  | _ => None
  end.

(** A decoder with a single-logit mask, to be resized. *)
Definition decode_1x1 (x : Z) (call : Ort.RunCall) : option (list Ort.Tensor) :=
  Some [ {| Ort.t_data := [F32.of_int 1]; Ort.t_count := 1; Ort.t_shape := [1; 1] |};
         {| Ort.t_data := [F32.of_int x]; Ort.t_count := 1; Ort.t_shape := [1; 1; 1; 1] |} ].

(** Resizing by repeating the first source value. *)
Definition spread (src : Cv.MatF) (dsize : Cv.Size) : option Cv.MatF :=
  match Cv.fdata src with
  | v :: _ =>
      Some {| Cv.frows := Cv.height dsize; Cv.fcols := Cv.width dsize;
              Cv.fdata := replicate (Z.to_nat (Cv.height dsize * Cv.width dsize)) v |}
  | [] => None
  end.

(** A runtime that checks tensor arguments. *)
Definition strict : Runtime :=
  {| file_good := fun p => bool_decide (is_Some (files p));
     open_session := files; tensor_ok := enough_space;
     run_pre := embed; run_sam := decode; resize := spread |}.

(** A runtime that accepts every tensor. *)
Definition lenient : Runtime :=
  {| file_good := fun p => bool_decide (is_Some (files p));
     open_session := files; tensor_ok := fun _ => true;
     run_pre := embed; run_sam := decode; resize := spread |}.

(** A runtime whose decoder answers with a 1x1 mask of logit [x]. *)
Definition lowres (x : Z) : Runtime :=
  {| file_good := fun p => bool_decide (is_Some (files p));
     open_session := files; tensor_ok := enough_space;
     run_pre := embed; run_sam := decode_1x1 x; resize := spread |}.

Definition param : Sam_Parameter :=
  {| models := (encoder_path, decoder_path); threadsNumber := 1 |}.
Definition param_missing : Sam_Parameter :=
  {| models := (encoder_path, "nowhere.onnx"%string); threadsNumber := 1 |}.

(** A 2x2 BGR image, pixels in row-major order. *)
Definition imageA : Cv.Mat :=
  {| Cv.channels := 3; Cv.rows := 2; Cv.cols := 2;
     Cv.data := [Byte.x00; Byte.x33; Byte.xff;   Byte.x01; Byte.x02; Byte.x03;
                 Byte.x10; Byte.x20; Byte.x30;   Byte.xff; Byte.xff; Byte.x00] |}.

(** The same picture with one row more: the wrong size. *)
Definition imageB : Cv.Mat :=
  {| Cv.channels := 3; Cv.rows := 3; Cv.cols := 2;
     Cv.data := replicate 18 Byte.x80 |}.

(** A single-channel image of the right size. *)
Definition imageGray : Cv.Mat :=
  {| Cv.channels := 1; Cv.rows := 2; Cv.cols := 2; Cv.data := replicate 4 Byte.x80 |}.

Definition p1 : Cv.Point := {| Cv.x := 1; Cv.y := 0 |}.
Definition p2 : Cv.Point := {| Cv.x := 0; Cv.y := 1 |}.
Definition n1 : Cv.Point := {| Cv.x := 1; Cv.y := 1 |}.
Definition box : Cv.Rect := {| Cv.rx := 0; Cv.ry := 0; Cv.rwidth := 2; Cv.rheight := 2 |}.
Definition flat_box : Cv.Rect :=
  {| Cv.rx := 1; Cv.ry := 1; Cv.rwidth := 0; Cv.rheight := 0 |}.

(** The object [Sam(param)] builds, before any call. *)
Definition world0 : World :=
  {| self :=
       {| sessionPre := Some {| Ort.path := encoder_path; Ort.info := encoder |};
          sessionSam := Some {| Ort.path := decoder_path; Ort.info := decoder |};
          inputShapePre := [1; 3; 2; 2]; outputShapePre := [1; 2; 1; 1];
          outputTensorValuesPre := []; bModelLoaded := true |};
     ort_log := [] |}.

(** The world after [loadImage(imageA)]. *)
Definition worldA : World := snd (@Model.loadImage strict imageA world0).

End Fixture.

(* ===================================================================== *)
(** ** A caller's session: any sequence of calls on the facade *)

Module Session.
Section WithRuntime.
Context {rt : Runtime}.

Inductive Op :=
  | Op_getInputSize
  | Op_loadImage (image : Cv.Mat)
  | Op_getMask (points negativePoints : list Cv.Point) (roi : Cv.Rect).

(** One call; the object is left as the call left it, also when the
    call ended in an exception the caller caught. *)
Definition step (w : World) (op : Op) : World :=
  match op with
  | Op_getInputSize => snd (Sam.getInputSize w)
  | Op_loadImage image => snd (Sam.loadImage image w)
  | Op_getMask points negativePoints roi => snd (Sam.getMask points negativePoints roi w)
  end.

Definition run (ops : list Op) (w : World) : World := fold_left step ops w.

(** The two kinds of runtime call the object [m] can make: the
    embedding run of [loadImage] and the decoder run of [getMask]. *)
Definition encoder_call (m : SamModel) (call : Ort.RunCall) : Prop :=
  exists s t buf,
    sessionPre m = Some s /\
    call = Model.pre_call s
             {| Ort.t_data := t; Ort.t_count := Vec.size t;
                Ort.t_shape := inputShapePre m |}
             {| Ort.t_data := buf; Ort.t_count := Vec.size buf;
                Ort.t_shape := outputShapePre m |}.

Definition decoder_call (m : SamModel) (call : Ort.RunCall) : Prop :=
  exists s emb pv lv N,
    sessionSam m = Some s /\
    call = Model.sam_call s
             [{| Ort.t_data := emb; Ort.t_count := Vec.size emb;
                 Ort.t_shape := outputShapePre m |};
              {| Ort.t_data := pv; Ort.t_count := Int.to_size_t (Int.to_int (2 * N));
                 Ort.t_shape := [1; N; 2] |};
              {| Ort.t_data := lv; Ort.t_count := Int.to_size_t N; Ort.t_shape := [1; N] |}].

End WithRuntime.
End Session.

(* ===================================================================== *)
(** ** The demo driver: [main] *)

(** What [main] takes from its host besides the inference runtime. *)
Class Host := {
  (** [cv::imread(path)]: an empty matrix when the file cannot be read *)
  imread : string -> Cv.Mat;
  (** [cv::resize(src, dst, dsize)] on an 8-bit image; [None] when it throws *)
  resize8 : Cv.Mat -> Cv.Size -> option Cv.Mat;
  (** [std::thread::hardware_concurrency()] *)
  hardware_concurrency : Z
}.

Module Main.
Section WithHost.
Context {rt : Runtime} {host : Host}.

(** How [main] ends: [return]/[exit] with a code, or a fault or an
    uncaught exception. *)
Inductive Exit :=
  | Return (code : Z)
  | Crash (f : Fault).

(** [Mat::empty()]: no element. *)
Definition Mat_empty (m : Cv.Mat) : bool := Cv.rows m * Cv.cols m =? 0.

(** [Size::empty()]. *)
Definition Size_empty (sz : Cv.Size) : bool := (Cv.width sz <=? 0) || (Cv.height sz <=? 0).

(** [cvRound(float)]: the nearest integer, ties to even.  The values
    rounded here are below 256; infinities and NaN give the integer
    indefinite value. *)
Definition round_half_even (n d : Z) : Z :=
  let q := n / d in
  let r := n mod d in
  if 2 * r <? d then q
  else if d <? 2 * r then q + 1
  else if Z.even q then q else q + 1.

Definition cvRound (v : F32.float) : Z :=
  match v with
  | S754_zero _ => 0
  | S754_finite s m e =>
      let n := if 0 <=? e then Z.pos m * 2 ^ e else round_half_even (Z.pos m) (2 ^ (- e)) in
      if s then - n else n
  | _ => Int.INT_MIN
  end.

(** [saturate_cast<uchar>(int)]. *)
Definition saturate_uchar (z : Z) : Byte.byte :=
  match Byte.of_N (Z.to_N (Z.min 255 (Z.max 0 z))) with
  | Some b => b
  | None => Byte.xff
  end.

(** One component of [Vec3b * float]:
    [saturate_cast<uchar>(a.val[i] * alpha)], the product in [float]. *)
Definition scale_uchar (b : Byte.byte) (alpha : F32.float) : Byte.byte :=
  saturate_uchar (cvRound (SFmul F32.prec32 F32.emax32 (F32.of_uchar b) alpha)).

(** [float factor = bFront ? 1.0 : 0.2;]: [double] literals narrowed. *)
Definition factor (bFront : bool) : F32.float :=
  if bFront then F32.of_double (F32.double_of_int 1)
  else F32.of_double (SFdiv F32.prec64 F32.emax64 (F32.double_of_int 1) (F32.double_of_int 5)).

Definition byte_pos (b : Byte.byte) : bool := 0 <? Z.of_N (Byte.to_N b).

(** [cv::Mat::zeros(size, CV_8UC3)]. *)
Definition zeros_8UC3 (sz : Cv.Size) : Cv.Mat :=
  {| Cv.channels := 3; Cv.rows := Cv.height sz; Cv.cols := Cv.width sz;
     Cv.data := replicate (Z.to_nat (Cv.height sz * Cv.width sz * 3)) Byte.x00 |}.

(** [outImage.at<cv::Vec3b>(i, j)[k] = v]; [outImage] has no tag of
    its own among the buffers and shares the one of the image. *)
Definition set_Vec3b (m : Cv.Mat) (i j k : Z) (v : Byte.byte) : Result Cv.Mat :=
  d ← Vec.set image_buf (Cv.data m) ((i * Cv.cols m + j) * 3 + k) v;
  mret {| Cv.channels := Cv.channels m; Cv.rows := Cv.rows m; Cv.cols := Cv.cols m;
          Cv.data := d |}.

(** The body of the overlay loops at pixel [(i, j)]. *)
Definition overlay_pixel (image mask : Cv.Mat) (i j : Z) (outImage : Cv.Mat)
  : Result Cv.Mat :=
  m ← Vec.at_ outputMaskSam_buf (Cv.data mask) (i * Cv.cols mask + j);
  let bFront := byte_pos m in
  let factor := factor bFront in
  c0 ← Cv.at_Vec3b image i j 0;
  c1 ← Cv.at_Vec3b image i j 1;
  c2 ← Cv.at_Vec3b image i j 2;
  outImage ← set_Vec3b outImage i j 0 (scale_uchar c0 factor);
  outImage ← set_Vec3b outImage i j 1 (scale_uchar c1 factor);
  set_Vec3b outImage i j 2 (scale_uchar c2 factor).

(** "apply mask to image": the image where the mask is set, dimmed elsewhere. *)
Definition overlay (image mask : Cv.Mat) : Result Cv.Mat :=
  for_lt (Cv.rows image)
    (fun i => for_lt (Cv.cols image) (fun j => overlay_pixel image mask i j))
    (zeros_8UC3 (Cv.size image)).

Definition param : Sam_Parameter :=
  {| models := ("../models/edge_sam_3x_encoder.onnx"%string,
                "../models/edge_sam_3x_decoder.onnx"%string);
     threadsNumber := hardware_concurrency |}.

Definition box : Cv.Rect := {| Cv.rx := 0; Cv.ry := 0; Cv.rwidth := 1024; Cv.rheight := 1024 |}.

(** What a run of [main] leaves: how it ended, the files it wrote with
    [cv::imwrite], in order, and the calls it made on the runtime. *)
Record Outcome := {
  exit : Exit;
  written : list (string * Cv.Mat);
  calls : list Ort.RunCall
}.

(** [main(argc, argv)]; [argv] holds the program name first. *)
Definition main (argv : list string) : Outcome :=
  match argv with
  | [] | [_] => {| exit := Return 0; written := []; calls := [] |}
  | _ :: imageFilePath :: _ =>
    let image := imread imageFilePath in
    if Mat_empty image then {| exit := Return (-1); written := []; calls := [] |}
    else
      match Sam.new param with
      | Raise f => {| exit := Crash f; written := []; calls := [] |}
      | Val w =>
        match Sam.getInputSize w with
        | (Raise f, w) => {| exit := Crash f; written := []; calls := ort_log w |}
        | (Val inputSize, w) =>
          if Size_empty inputSize then
            {| exit := Return (-1); written := []; calls := ort_log w |}
          else
            match resize8 image inputSize with
            | None => {| exit := Crash CvException; written := []; calls := ort_log w |}
            | Some image =>
              match Sam.loadImage image w with
              | (Raise f, w) => {| exit := Crash f; written := []; calls := ort_log w |}
              | (Val false, w) =>
                  {| exit := Return (-1); written := []; calls := ort_log w |}
              | (Val true, w) =>
                match Sam.getMask [] [] box w with
                | (Raise f, w) => {| exit := Crash f; written := []; calls := ort_log w |}
                | (Val (mask, _), w) =>
                  let written1 := [("../output/mask.png"%string, mask)] in
                  match overlay image mask with
                  | Raise f => {| exit := Crash f; written := written1; calls := ort_log w |}
                  | Val outImage =>
                      {| exit := Return 0;
                         written := written1 ++
                                    [("../output/overlayImgMask.png"%string, outImage)];
                         calls := ort_log w |}
                  end
                end
              end
            end
        end
      end
  end.

End WithHost.
End Main.

(** A host for the examples: every path reads as [Fixture.imageA] except
    "missing.png", and resizing repeats the first pixel. *)
Module HostFixture.

Definition read (p : string) : Cv.Mat :=
  if String.eqb p "missing.png" then Cv.Mat0 else Fixture.imageA.

Definition repeat_pixel (src : Cv.Mat) (dsize : Cv.Size) : option Cv.Mat :=
  if (Cv.data src !! 0%nat, Cv.data src !! 1%nat, Cv.data src !! 2%nat) is
       (Some b, Some g, Some r)
  then Some {| Cv.channels := Cv.channels src; Cv.rows := Cv.height dsize;
               Cv.cols := Cv.width dsize;
               Cv.data := mjoin (replicate (Z.to_nat (Cv.height dsize * Cv.width dsize))
                                   [b; g; r]) |}
  else None.

Definition host : Host :=
  {| imread := read; resize8 := repeat_pixel; hardware_concurrency := 4 |}.

(** A runtime whose encoder declares a dynamic height. *)
Definition dynamic_encoder : Ort.ModelInfo :=
  {| Ort.GetInputCount := 1; Ort.GetOutputCount := 1;
     Ort.InputShape0 := [1; 3; -1; 2]; Ort.OutputShape0 := [1; 2; 1; 1] |}.

Definition dynamic_world : World :=
  {| self :=
       {| sessionPre := Some {| Ort.path := Fixture.encoder_path; Ort.info := dynamic_encoder |};
          sessionSam := Some {| Ort.path := Fixture.decoder_path; Ort.info := Fixture.decoder |};
          inputShapePre := [1; 3; -1; 2]; outputShapePre := [1; 2; 1; 1];
          outputTensorValuesPre := []; bModelLoaded := true |};
     ort_log := [] |}.

(** A runtime that accepts input tensors of the encoder's shape only. *)
Definition refuse_output : Runtime :=
  {| file_good := fun p => bool_decide (is_Some (Fixture.files p));
     open_session := Fixture.files;
     tensor_ok := fun t => bool_decide (Ort.t_shape t = [1; 3; 2; 2]);
     run_pre := Fixture.embed; run_sam := Fixture.decode; resize := Fixture.spread |}.

(** A runtime that accepts no tensor. *)
Definition refuse_all : Runtime :=
  {| file_good := fun p => bool_decide (is_Some (Fixture.files p));
     open_session := Fixture.files; tensor_ok := fun _ => false;
     run_pre := Fixture.embed; run_sam := Fixture.decode; resize := Fixture.spread |}.

End HostFixture.

(** A runtime whose encoder declares a single-plane input: rank four,
    as the constructor asks, with channel dimension 1. *)
Module GrayFixture.

Definition encoder_gray : Ort.ModelInfo :=
  {| Ort.GetInputCount := 1; Ort.GetOutputCount := 1;
     Ort.InputShape0 := [1; 1; 2; 2]; Ort.OutputShape0 := [1; 2; 1; 1] |}.

Definition files (p : string) : option Ort.ModelInfo :=
  if String.eqb p Fixture.encoder_path then Some encoder_gray
  else if String.eqb p Fixture.decoder_path then Some Fixture.decoder
  else None.

Definition gray : Runtime :=
  {| file_good := fun p => bool_decide (is_Some (files p));
     open_session := files; tensor_ok := Fixture.enough_space;
     run_pre := Fixture.embed; run_sam := Fixture.decode; resize := Fixture.spread |}.

(** The object [Sam(param)] builds on that runtime. *)
Definition world : World :=
  {| self :=
       {| sessionPre := Some {| Ort.path := Fixture.encoder_path; Ort.info := encoder_gray |};
          sessionSam := Some {| Ort.path := Fixture.decoder_path; Ort.info := Fixture.decoder |};
          inputShapePre := [1; 1; 2; 2]; outputShapePre := [1; 2; 1; 1];
          outputTensorValuesPre := []; bModelLoaded := true |};
     ort_log := [] |}.

End GrayFixture.

(* ===================================================================== *)
(** * Properties *)

(** ** Integers and floats *)

Arguments F32.of_int : simpl never.
Arguments F32.div255 : simpl never.
Arguments F32.of_uchar : simpl never.
Arguments Int.to_int : simpl never.
Arguments Vec.make : simpl never.
Arguments for_lt : simpl never.
Arguments Model.preprocess : simpl never.
Arguments Model.encode : simpl never.
Arguments Model.postprocess : simpl never.
Arguments Cv.create_8UC1 : simpl never.

Lemma to_int_fits z : Int.fits z -> Int.to_int z = z.
Proof.
  unfold Int.fits, Int.INT_MIN, Int.INT_MAX, Int.to_int. intros Hz.
  rewrite Z.mod_small by lia. lia.
Qed.

Lemma to_size_t_small z : 0 <= z < 2 ^ 64 -> Int.to_size_t z = z.
Proof. intros Hz. unfold Int.to_size_t. by rewrite Z.mod_small. Qed.

Lemma to_int_range z : Int.fits (Int.to_int z).
Proof.
  unfold Int.fits, Int.INT_MIN, Int.INT_MAX, Int.to_int.
  pose proof (Z.mod_pos_bound (z + 2 ^ 31) (2 ^ 32)). lia.
Qed.

Example f32_one : F32.of_int 1 = S754_finite false 8388608 (-23).
Proof. reflexivity. Qed.

Example f32_div255_full : F32.div255 (F32.of_int 255) = F32.of_int 1.
Proof. vm_compute. reflexivity. Qed.

Example f32_div255_zero : F32.div255 F32.zero = F32.zero.
Proof. vm_compute. reflexivity. Qed.

Example f32_gt0_samples :
  F32.gt0 (F32.of_int 1) = true /\ F32.gt0 (F32.of_int (-1)) = false /\
  F32.gt0 F32.zero = false /\ F32.gt0 S754_nan = false.
Proof. repeat split. Qed.

(** A normalised pixel value lies in [[0, 1]]. *)
Lemma div255_unit_interval (b : Byte.byte) :
  F32.leb F32.zero (F32.div255 (F32.of_uchar b)) = true /\
  F32.leb (F32.div255 (F32.of_uchar b)) (F32.of_int 1) = true.
Proof. destruct b; vm_compute; split; reflexivity. Qed.

(** It is within half a unit in the last place of the exact quotient
    [b / 255]: with the value [n / 2^sh] of the float,
    [|255 n - b 2^sh| * 2^25 <= 255 * 2^sh]. *)
Lemma div255_nearest (b : Byte.byte) :
  exists n sh,
    F32.to_frac (F32.div255 (F32.of_uchar b)) = Some (n, sh) /\
    Z.abs (255 * n - Z.of_N (Byte.to_N b) * 2 ^ sh) * 2 ^ 25 <= 255 * 2 ^ sh.
Proof.
  destruct b;
    match goal with
    | |- exists n sh, F32.to_frac ?x = _ /\ _ =>
        let r := eval vm_compute in (F32.to_frac x) in
        match r with
        | Some (?n, ?sh) => exists n, sh; split; [vm_compute; reflexivity | vm_compute; discriminate]
        end
    end.
Qed.

(** ** Prompt encoding *)

Lemma fold_push_point label ps cs ls :
  fold_left (Model.push_point label) ps (cs, ls) =
  (cs ++ flat_map Contract.point_coords ps, ls ++ map (fun _ => F32.of_int label) ps).
Proof.
  revert cs ls. induction ps as [|p ps IH]; intros cs ls; simpl.
  - by rewrite !app_nil_r.
  - rewrite IH. unfold Vec.push_back, Contract.point_coords.
    by rewrite <- !app_assoc.
Qed.

(** The two push-back loops and the box branch build exactly the
    concatenation the contract describes, for the box that a non-empty
    [roi] denotes. *)
Lemma encode_contract points negativePoints roi :
  Model.encode points negativePoints roi =
  (Contract.coords points negativePoints (Contract.box_of roi),
   Contract.labels points negativePoints (Contract.box_of roi)).
Proof.
  unfold Model.encode, Contract.coords, Contract.labels, Contract.box_of.
  rewrite !fold_push_point.
  destruct (Cv.empty roi); cbn [negb app].
  - by rewrite !app_nil_r.
  - unfold Vec.push_back, Contract.point_coords.
    rewrite <- !app_assoc. reflexivity.
Qed.

Lemma encode_lengths points negativePoints roi :
  length (fst (Model.encode points negativePoints roi)) =
  (2 * length (snd (Model.encode points negativePoints roi)))%nat.
Proof.
  rewrite encode_contract. cbn [fst snd].
  unfold Contract.coords, Contract.labels.
  rewrite !length_app, !length_map.
  assert (Hflat : forall ps, length (flat_map Contract.point_coords ps) = (2 * length ps)%nat).
  { induction ps; simpl; lia. }
  rewrite !Hflat. destruct (Contract.box_of roi); simpl; lia.
Qed.



(** C4, as the code has it: a rectangle with positive width and height
    contributes its top-left and bottom-right corners with labels 2 and
    3; a rectangle whose width or height is not positive, a zero-area
    one included, contributes nothing. *)
Theorem encode_box points negativePoints roi :
  Model.encode points negativePoints roi =
    (Contract.coords points negativePoints None ++
       (if Cv.empty roi then []
        else [F32.of_int (Cv.rx roi); F32.of_int (Cv.ry roi);
              F32.of_int (Int.to_int (Cv.rx roi + Cv.rwidth roi));
              F32.of_int (Int.to_int (Cv.ry roi + Cv.rheight roi))]),
     Contract.labels points negativePoints None ++
       (if Cv.empty roi then [] else [F32.of_int 2; F32.of_int 3])) /\
  Cv.empty roi = (Cv.rwidth roi <=? 0) || (Cv.rheight roi <=? 0).
Proof.
  split; [|reflexivity].
  rewrite encode_contract. unfold Contract.coords, Contract.labels, Contract.box_of.
  destruct (Cv.empty roi); rewrite <- ?app_assoc; reflexivity.
Qed.

(** C4 as stated fails: the zero-area box at (1,1) adds no corner and
    no label, where the contract asks for two of each. *)
Lemma encode_zero_area_box_dropped :
  Model.encode [Fixture.p1] [] Fixture.flat_box = Model.encode [Fixture.p1] [] Cv.Rect0 /\
  snd (Model.encode [Fixture.p1] [] Fixture.flat_box) = [F32.of_int 1] /\
  Model.encode [Fixture.p1] [] Fixture.flat_box <>
    (Contract.coords [Fixture.p1] [] (Some Fixture.flat_box),
     Contract.labels [Fixture.p1] [] (Some Fixture.flat_box)).
Proof. repeat split. discriminate. Qed.

(** ** Loops *)

Lemma for_range_inv {S} (I : Z -> S -> Prop) (body : Z -> S -> Result S) n lo s :
  I lo s ->
  (forall i t, lo <= i < lo + Z.of_nat n -> I i t -> exists t', body i t = Val t' /\ I (i + 1) t') ->
  exists s', for_range n lo body s = Val s' /\ I (lo + Z.of_nat n) s'.
Proof.
  revert lo s. induction n as [|n IH]; intros lo s H0 Hstep.
  - exists s. split; [reflexivity|]. by replace (lo + Z.of_nat 0) with lo by lia.
  - destruct (Hstep lo s) as (t & Hb & Ht); [lia|done|].
    destruct (IH (lo + 1) t) as (s' & Hr & Hs'); [done| |].
    + intros i u Hi Hu. apply Hstep; [lia|done].
    + exists s'. split.
      * cbn [for_range]. rewrite Hb. exact Hr.
      * by replace (lo + Z.of_nat (Datatypes.S n)) with (lo + 1 + Z.of_nat n) by lia.
Qed.

Lemma for_lt_inv {S} (I : Z -> S -> Prop) (body : Z -> S -> Result S) hi s :
  0 <= hi <= Int.INT_MAX ->
  I 0 s ->
  (forall i t, 0 <= i < hi -> I i t -> exists t', body i t = Val t' /\ I (i + 1) t') ->
  exists s', for_lt hi body s = Val s' /\ I hi s'.
Proof.
  intros Hhi H0 Hstep. unfold for_lt. rewrite decide_True by lia.
  destruct (for_range_inv I body (Z.to_nat hi) 0 s) as (s' & Hr & Hs'); [done| |].
  - intros i t Hi. apply Hstep. lia.
  - exists s'. split; [done|]. by replace hi with (0 + Z.of_nat (Z.to_nat hi)) by lia.
Qed.

(** Two nested counting loops visit the cells of an [R] x [C] grid in
    row-major order: an invariant indexed by the number of cells done. *)
Lemma for_lt_grid {S} (P : Z -> S -> Prop) (body : Z -> Z -> S -> Result S) R C s :
  0 <= R <= Int.INT_MAX -> 0 <= C <= Int.INT_MAX ->
  P 0 s ->
  (forall i j t, 0 <= i < R -> 0 <= j < C -> P (i * C + j) t ->
     exists t', body i j t = Val t' /\ P (i * C + j + 1) t') ->
  exists s', for_lt R (fun i => for_lt C (body i)) s = Val s' /\ P (R * C) s'.
Proof.
  intros HR HC H0 Hstep.
  apply (for_lt_inv (fun i t => P (i * C) t)); [done|done|].
  intros i t Hi Ht.
  destruct (for_lt_inv (fun j u => P (i * C + j) u) (body i) C t) as (t' & Hr & Ht');
    [done|by rewrite Z.add_0_r| |].
  - intros j u Hj Hu. destruct (Hstep i j u) as (u' & ? & ?); [done..|].
    exists u'. split; [done|]. by rewrite Z.add_assoc.
  - exists t'. split; [done|]. by replace ((i + 1) * C) with (i * C + C) by lia.
Qed.

(** A loop fails only the way its body can fail. *)
Lemma for_range_raise {S} (Q : Fault -> Prop) (body : Z -> S -> Result S) n lo s e :
  (forall i t f, body i t = Raise f -> Q f) ->
  for_range n lo body s = Raise e -> Q e.
Proof.
  intros Hbody. revert lo s. induction n as [|n IH]; intros lo s; cbn [for_range].
  - discriminate.
  - destruct (body lo s) as [t|f] eqn:Hb; cbn.
    + apply IH.
    + intros [= <-]. eauto.
Qed.

Lemma for_lt_raise {S} (Q : Fault -> Prop) (body : Z -> S -> Result S) hi s e :
  Q IntOverflow ->
  (forall i t f, body i t = Raise f -> Q f) ->
  for_lt hi body s = Raise e -> Q e.
Proof.
  intros HQ Hbody. unfold for_lt. case_decide.
  - by apply for_range_raise.
  - by intros [= <-].
Qed.

(** ** Vectors *)

Lemma Vec_at_Val {A} b (v : list A) i x :
  0 <= i -> v !! Z.to_nat i = Some x -> Vec.at_ b v i = Val x.
Proof. intros Hi Hx. unfold Vec.at_. rewrite decide_True by done. by rewrite Hx. Qed.

Lemma Vec_at_lt {A} b (v : list A) i :
  0 <= i < Z.of_nat (length v) -> exists x, v !! Z.to_nat i = Some x /\ Vec.at_ b v i = Val x.
Proof.
  intros Hi. destruct (lookup_lt_is_Some_2 v (Z.to_nat i)) as [x Hx]; [lia|].
  exists x. split; [done|]. apply Vec_at_Val; [lia|done].
Qed.

Lemma Vec_at_raise {A} b (v : list A) i f : Vec.at_ b v i = Raise f -> f = OutOfBounds b.
Proof.
  unfold Vec.at_. case_decide; [destruct (v !! Z.to_nat i)|]; congruence.
Qed.

Lemma Vec_set_Val {A} b (v : list A) i x :
  0 <= i < Z.of_nat (length v) -> Vec.set b v i x = Val (<[Z.to_nat i := x]> v).
Proof. intros Hi. unfold Vec.set. by rewrite decide_True. Qed.

Lemma Vec_set_raise {A} b (v : list A) i x f : Vec.set b v i x = Raise f -> f = OutOfBounds b.
Proof. unfold Vec.set. case_decide; congruence. Qed.

Lemma Vec_make_Val n : 0 <= n -> Vec.make n = Val (replicate (Z.to_nat n) F32.zero).
Proof. intros Hn. unfold Vec.make. by rewrite decide_True. Qed.

(** Reads of a four-element shape vector at constant positions. *)
Ltac shape_reads :=
  repeat match goal with
  | |- context [Vec.at_ ?b (?a0 :: ?r) 0] =>
      change (Vec.at_ b (a0 :: r) 0) with (Val a0)
  | |- context [Vec.at_ ?b (?a0 :: ?a1 :: ?r) 1] =>
      change (Vec.at_ b (a0 :: a1 :: r) 1) with (Val a1)
  | |- context [Vec.at_ ?b (?a0 :: ?a1 :: ?a2 :: ?r) 2] =>
      change (Vec.at_ b (a0 :: a1 :: a2 :: r) 2) with (Val a2)
  | |- context [Vec.at_ ?b (?a0 :: ?a1 :: ?a2 :: ?a3 :: ?r) 3] =>
      change (Vec.at_ b (a0 :: a1 :: a2 :: a3 :: r) 3) with (Val a3)
  end;
  cbn beta iota.

(** Unfolding of the binds of [Result] and of [M]. *)
Ltac run_R := unfold mbind, Result_bind, mret, Result_ret; cbn beta iota.
Ltac run_M :=
  unfold mbind, M_bind, mret, M_ret, Result_bind, Result_ret, lift, get, modify;
  cbn beta iota zeta.

(** ** Image preprocessing *)

Lemma store_pixel_val image H W i j v :
  Cv.cols image = W ->
  Z.of_nat (length (Cv.data image)) = H * W * 3 ->
  0 <= i < H -> 0 <= j < W ->
  3 * (H * W) <= Z.of_nat (length v) ->
  exists c0 c1 c2,
    Cv.at_Vec3b image i j 0 = Val c0 /\
    Cv.at_Vec3b image i j 1 = Val c1 /\
    Cv.at_Vec3b image i j 2 = Val c2 /\
    Model.store_pixel image H W i j v =
      Val (<[Z.to_nat (2 * (H * W) + (i * W + j)) := F32.of_uchar c0]>
             (<[Z.to_nat (H * W + (i * W + j)) := F32.of_uchar c1]>
                (<[Z.to_nat (i * W + j) := F32.of_uchar c2]> v))).
Proof.
  intros Hcols Hlen Hi Hj Hv.
  assert (Hk : 0 <= i * W + j < H * W) by nia.
  unfold Cv.at_Vec3b. rewrite Hcols.
  destruct (Vec_at_lt image_buf (Cv.data image) ((i * W + j) * 3 + 0)) as (c0 & _ & E0); [lia|].
  destruct (Vec_at_lt image_buf (Cv.data image) ((i * W + j) * 3 + 1)) as (c1 & _ & E1); [lia|].
  destruct (Vec_at_lt image_buf (Cv.data image) ((i * W + j) * 3 + 2)) as (c2 & _ & E2); [lia|].
  exists c0, c1, c2. repeat split; try done.
  unfold Model.store_pixel, Cv.at_Vec3b. rewrite Hcols, E0, E1, E2. cbn.
  rewrite Vec_set_Val by lia. cbn.
  replace (H * W + i * W + j) with (H * W + (i * W + j)) by lia.
  rewrite Vec_set_Val by (rewrite length_insert; lia). cbn.
  replace (2 * H * W + i * W + j) with (2 * (H * W) + (i * W + j)) by lia.
  rewrite Vec_set_Val by (rewrite !length_insert; lia). reflexivity.
Qed.

(** The state of [inputTensorValuesFloat] after [k] pixels: its length
    is unchanged, every entry is zero or a pixel value, and the three
    planes hold the first [k] pixels with the channels reversed. *)
Lemma store_loops_val image H W (v0 : list F32.float) :
  0 <= H <= Int.INT_MAX -> 0 <= W <= Int.INT_MAX ->
  Cv.cols image = W ->
  Z.of_nat (length (Cv.data image)) = H * W * 3 ->
  3 * (H * W) <= Z.of_nat (length v0) ->
  Forall (fun x => x = F32.zero \/ exists b, x = F32.of_uchar b) v0 ->
  exists v,
    for_lt H (fun i => for_lt W (fun j => Model.store_pixel image H W i j)) v0 = Val v /\
    length v = length v0 /\
    Forall (fun x => x = F32.zero \/ exists b, x = F32.of_uchar b) v /\
    forall ch q px, 0 <= ch < 3 -> 0 <= q < H * W ->
      Cv.data image !! Z.to_nat (q * 3 + (2 - ch)) = Some px ->
      v !! Z.to_nat (ch * (H * W) + q) = Some (F32.of_uchar px).
Proof.
  intros HH HW Hcols Hlen Hv0 Hall0.
  pose (P := fun (k : Z) (v : list F32.float) =>
    length v = length v0 /\
    Forall (fun x => x = F32.zero \/ exists b, x = F32.of_uchar b) v /\
    forall ch q px, 0 <= ch < 3 -> 0 <= q < k ->
      Cv.data image !! Z.to_nat (q * 3 + (2 - ch)) = Some px ->
      v !! Z.to_nat (ch * (H * W) + q) = Some (F32.of_uchar px)).
  destruct (for_lt_grid P (fun i j => Model.store_pixel image H W i j) H W v0)
    as (v & Hrun & Hv); [done|done| | |].
  - repeat split; [done|]. intros; lia.
  - intros i j t Hi Hj (Hlt & Hallt & Hpix).
    destruct (store_pixel_val image H W i j t) as (c0 & c1 & c2 & E0 & E1 & E2 & Hs);
      [done|done|done|done|lia|].
    eexists. split; [exact Hs|].
    assert (Hk : 0 <= i * W + j < H * W) by nia.
    set (k := i * W + j) in *. set (HW' := H * W) in *.
    unfold Cv.at_Vec3b in E0, E1, E2. rewrite Hcols in E0, E1, E2. fold k in E0, E1, E2.
    unfold Vec.at_ in E0, E1, E2.
    rewrite decide_True in E0 by lia. rewrite decide_True in E1 by lia.
    rewrite decide_True in E2 by lia.
    destruct (Cv.data image !! Z.to_nat (k * 3 + 0)) as [d0|] eqn:D0; [|done].
    destruct (Cv.data image !! Z.to_nat (k * 3 + 1)) as [d1|] eqn:D1; [|done].
    destruct (Cv.data image !! Z.to_nat (k * 3 + 2)) as [d2|] eqn:D2; [|done].
    injection E0 as ->. injection E1 as ->. injection E2 as ->.
    split; [by rewrite !length_insert|]. split.
    + repeat apply Forall_insert; eauto.
    + intros ch q px Hch Hq Hpx.
      destruct (decide (q = k)) as [->|Hne].
      * assert (ch = 0 \/ ch = 1 \/ ch = 2) as [-> | [-> | ->]] by lia.
        -- replace (2 - 0) with 2 in Hpx by lia.
           rewrite list_lookup_insert_ne by lia. rewrite list_lookup_insert_ne by lia.
           replace (0 * HW' + k) with k by lia.
           rewrite list_lookup_insert_eq by lia. congruence.
        -- replace (2 - 1) with 1 in Hpx by lia.
           rewrite list_lookup_insert_ne by lia.
           replace (1 * HW' + k) with (HW' + k) by lia.
           rewrite list_lookup_insert_eq by (rewrite length_insert; lia). congruence.
        -- replace (2 - 2) with 0 in Hpx by lia.
           rewrite list_lookup_insert_eq by (rewrite !length_insert; lia). congruence.
      * assert (ch = 0 \/ ch = 1 \/ ch = 2) as Hc by lia.
        rewrite !list_lookup_insert_ne by (destruct Hc as [-> | [-> | ->]]; lia).
        apply Hpix; [done|lia|done].
  - exists v. destruct Hv as (? & ? & ?). done.
Qed.

Lemma preprocess_val n c H W image :
  0 <= H <= Int.INT_MAX -> 0 <= W <= Int.INT_MAX ->
  3 <= n * c ->
  Cv.cols image = W ->
  Z.of_nat (length (Cv.data image)) = H * W * 3 ->
  exists t,
    Model.preprocess [n; c; H; W] image = Val t /\
    Vec.size t = n * c * H * W /\
    Forall (fun x => F32.leb F32.zero x = true /\ F32.leb x (F32.of_int 1) = true) t /\
    forall ch i j px, 0 <= ch < 3 -> 0 <= i < H -> 0 <= j < W ->
      Cv.at_Vec3b image i j (2 - ch) = Val px ->
      t !! Z.to_nat (ch * (H * W) + i * W + j) = Some (F32.div255 (F32.of_uchar px)).
Proof.
  intros HH HW Hnc Hcols Hlen.
  assert (Hsz : 3 * (H * W) <= n * c * H * W) by nia.
  assert (Hnn : 0 <= n * c * H * W) by nia.
  destruct (store_loops_val image H W (replicate (Z.to_nat (n * c * H * W)) F32.zero))
    as (v & Hrun & Hlv & Hall & Hpix); [done|done|done|done| | |].
  - rewrite length_replicate. lia.
  - apply Forall_replicate. by left.
  - exists (F32.div255 <$> v). split; [|split; [|split]].
    + unfold Model.preprocess. shape_reads. run_R.
      rewrite Vec_make_Val by done. run_R. rewrite Hrun. reflexivity.
    + unfold Vec.size. rewrite length_fmap, Hlv, length_replicate. lia.
    + apply Forall_fmap. eapply Forall_impl; [exact Hall|].
      intros x [->|[b ->]]; cbn.
      * rewrite f32_div255_zero. done.
      * apply div255_unit_interval.
    + intros ch i j px Hch Hi Hj Hpx.
      assert (Hk : 0 <= i * W + j < H * W) by nia.
      unfold Cv.at_Vec3b, Vec.at_ in Hpx. rewrite Hcols in Hpx.
      rewrite decide_True in Hpx by lia.
      destruct (Cv.data image !! Z.to_nat ((i * W + j) * 3 + (2 - ch))) as [d|] eqn:D; [|done].
      injection Hpx as ->.
      rewrite list_lookup_fmap.
      replace (ch * (H * W) + i * W + j) with (ch * (H * W) + (i * W + j)) by lia.
      by rewrite (Hpix ch (i * W + j) px).
Qed.

(** ** [loadImage] *)

Lemma mkSize_fits W H :
  0 <= H <= Int.INT_MAX -> 0 <= W <= Int.INT_MAX ->
  Cv.mkSize W H = {| Cv.width := W; Cv.height := H |}.
Proof.
  intros HH HW. unfold Cv.mkSize.
  rewrite !to_int_fits; [done|unfold Int.fits, Int.INT_MIN, Int.INT_MAX in *; lia..].
Qed.

(** An image of the wrong size or channel count: [false], and nothing changes. *)
Lemma loadImage_rejects {rt : Runtime} image w n c H W :
  inputShapePre (self w) = [n; c; H; W] ->
  Cv.size image <> Cv.mkSize W H \/ Cv.channels image <> 3 ->
  Model.loadImage image w = (Val false, w).
Proof.
  intros Hshape Hbad. unfold Model.loadImage. run_M. rewrite Hshape. shape_reads.
  case_bool_decide as Hsz; cbn; [|done].
  destruct Hbad as [Hbad|Hbad]; [done|].
  destruct (Z.eqb_spec (Cv.channels image) 3); [done|]. reflexivity.
Qed.


(** The call of the embedding session that [loadImage] makes. *)
Lemma loadImage_runs {rt : Runtime} image w n c H W o0 o1 o2 o3 s t :
  inputShapePre (self w) = [n; c; H; W] ->
  outputShapePre (self w) = [o0; o1; o2; o3] ->
  sessionPre (self w) = Some s ->
  Cv.size image = Cv.mkSize W H -> Cv.channels image = 3 ->
  Model.preprocess [n; c; H; W] image = Val t ->
  0 <= o0 * o1 * o2 * o3 ->
  let input := {| Ort.t_data := t; Ort.t_count := Vec.size t; Ort.t_shape := [n; c; H; W] |} in
  let buf := replicate (Z.to_nat (o0 * o1 * o2 * o3)) F32.zero in
  let output := {| Ort.t_data := buf; Ort.t_count := Vec.size buf;
                   Ort.t_shape := [o0; o1; o2; o3] |} in
  let call := Model.pre_call s input output in
  tensor_ok input = true -> tensor_ok output = true ->
  Model.loadImage image w =
    (if fst (run_pre call) then Val true else Raise OrtException,
     {| self := Model.set_cache (self w) (snd (run_pre call));
        ort_log := ort_log w ++ [call] |}).
Proof.
  intros Hshape Hoshape Hs Hsize Hch Hpre Hprod input buf output call Hin Hout.
  unfold Model.loadImage. run_M. rewrite Hshape, Hoshape. shape_reads.
  rewrite bool_decide_true by done. rewrite Hch. cbn [negb Z.eqb Pos.eqb].
  rewrite Hpre. unfold Model.CreateTensor at 1. fold input. rewrite Hin.
  rewrite Vec_make_Val by done. fold buf.
  unfold Model.CreateTensor. fold output. rewrite Hout.
  unfold Model.Run_pre. cbn [self ort_log Model.set_cache sessionPre].
  rewrite Hs. fold call. destruct (run_pre call) as [[] emb]; cbn; reflexivity.
Qed.

(** ** [getMask] *)

(** With a four-element input shape, a decoder session and tensors the
    runtime accepts, [getMask] makes exactly one call of the decoder,
    with three inputs, and hands its outputs to [postprocess]. *)
Lemma getMask_runs {rt : Runtime} points negativePoints roi out w n c H W s :
  inputShapePre (self w) = [n; c; H; W] ->
  0 <= H <= Int.INT_MAX -> 0 <= W <= Int.INT_MAX ->
  sessionSam (self w) = Some s ->
  let enc := Model.encode points negativePoints roi in
  let N := Int.to_int (Vec.size (snd enc)) in
  let embedding :=
    {| Ort.t_data := outputTensorValuesPre (self w);
       Ort.t_count := Vec.size (outputTensorValuesPre (self w));
       Ort.t_shape := outputShapePre (self w) |} in
  let coords := {| Ort.t_data := fst enc; Ort.t_count := Int.to_size_t (Int.to_int (2 * N));
                   Ort.t_shape := [1; N; 2] |} in
  let labels := {| Ort.t_data := snd enc; Ort.t_count := Int.to_size_t N;
                   Ort.t_shape := [1; N] |} in
  tensor_ok embedding = true -> tensor_ok coords = true -> tensor_ok labels = true ->
  let mask0 :=
    if negb (Cv.is_8UC1 out)
       || negb (bool_decide (Cv.size out = {| Cv.width := W; Cv.height := H |}))
    then Cv.blank_8UC1 H W else out in
  let call := Model.sam_call s [embedding; coords; labels] in
  Model.getMask points negativePoints roi out w =
    (match run_sam call with
     | Some outs => Model.postprocess outs mask0
     | None => Raise OrtException
     end,
     {| self := self w; ort_log := ort_log w ++ [call] |}).
Proof.
  intros Hshape HH HW Hs enc N embedding coords labels He Hc Hl mask0 call.
  unfold Model.getMask. run_M. rewrite Hshape. shape_reads.
  subst enc. destruct (Model.encode points negativePoints roi) as [pv lv] eqn:Henc.
  cbn [fst snd] in *. fold N.
  unfold Model.CreateTensor. fold embedding coords labels. rewrite He, Hc, Hl.
  rewrite mkSize_fits by done.
  rewrite !to_int_fits by (unfold Int.fits, Int.INT_MIN, Int.INT_MAX in *; lia).
  assert (Hm : (if negb (Cv.is_8UC1 out)
                   || negb (bool_decide (Cv.size out = {| Cv.width := W; Cv.height := H |}))
                then Cv.create_8UC1 H W else Val out) = Val mask0).
  { subst mask0. destruct (_ || _); [|done].
    unfold Cv.create_8UC1. rewrite decide_True by lia. done. }
  rewrite Hm. unfold Model.Run_sam. rewrite Hs. fold call.
  destruct (run_sam call); reflexivity.
Qed.

(** One threshold step writes cell [k] of the mask from cell [k] of the logits. *)
Lemma threshold_pixel_val img m i j C x :
  Cv.fcols img = C -> Cv.cols m = C ->
  0 <= i * C + j < Z.of_nat (length (Cv.data m)) ->
  Cv.fdata img !! Z.to_nat (i * C + j) = Some x ->
  Model.threshold_pixel img i j m =
    Val {| Cv.channels := Cv.channels m; Cv.rows := Cv.rows m; Cv.cols := Cv.cols m;
           Cv.data := <[Z.to_nat (i * C + j) := Contract.threshold x]> (Cv.data m) |}.
Proof.
  intros Hfc Hc Hk Hx. unfold Model.threshold_pixel, Cv.at_float, Cv.set_u8.
  rewrite Hfc, Hc. rewrite (Vec_at_Val _ _ _ x) by (done || lia). run_R.
  rewrite Vec_set_Val by done. reflexivity.
Qed.

Lemma threshold_loops_val img m R C :
  0 <= R <= Int.INT_MAX -> 0 <= C <= Int.INT_MAX ->
  Cv.rows m = R -> Cv.cols m = C -> Cv.fcols img = C ->
  Z.of_nat (length (Cv.data m)) = R * C ->
  R * C <= Z.of_nat (length (Cv.fdata img)) ->
  exists mask,
    Model.threshold_loops img m = Val mask /\
    Cv.channels mask = Cv.channels m /\ Cv.rows mask = R /\ Cv.cols mask = C /\
    Z.of_nat (length (Cv.data mask)) = R * C /\
    forall k, 0 <= k < R * C ->
      Cv.data mask !! Z.to_nat k = Contract.threshold <$> Cv.fdata img !! Z.to_nat k.
Proof.
  intros HR HC Hr Hc Hfc Hlen Himg.
  pose (P := fun (k : Z) (t : Cv.Mat) =>
    Cv.channels t = Cv.channels m /\ Cv.rows t = R /\ Cv.cols t = C /\
    length (Cv.data t) = length (Cv.data m) /\
    forall q, 0 <= q < k ->
      Cv.data t !! Z.to_nat q = Contract.threshold <$> Cv.fdata img !! Z.to_nat q).
  destruct (for_lt_grid P (fun i j => Model.threshold_pixel img i j) R C m)
    as (mask & Hrun & Hmask); [done|done| | |].
  - repeat split; try done. intros; lia.
  - intros i j t Hi Hj (Hch & Hrt & Hct & Hlt & Hpix).
    assert (Hk : 0 <= i * C + j < R * C) by nia.
    destruct (lookup_lt_is_Some_2 (Cv.fdata img) (Z.to_nat (i * C + j))) as [x Hx]; [lia|].
    eexists. split.
    { apply (threshold_pixel_val img t i j C x); [done|done|lia|done]. }
    unfold P. cbn [Cv.channels Cv.rows Cv.cols Cv.data].
    repeat split; try done.
    + by rewrite length_insert.
    + intros q Hq. destruct (decide (q = i * C + j)) as [->|Hne].
      * rewrite list_lookup_insert_eq by lia. by rewrite Hx.
      * rewrite list_lookup_insert_ne by lia. apply Hpix. lia.
  - exists mask. destruct Hmask as (? & ? & ? & Hl & ?).
    unfold Model.threshold_loops. rewrite Hr, Hc.
    repeat split; try done. lia.
Qed.

(** From well-formed decoder outputs, [postprocess] returns the score
    and the mask whose cell [k] is the threshold of cell [k] of the
    logits as [resize_to] left them. *)
Lemma postprocess_val {rt : Runtime} scores masks rest mask0 b ch r c iou logits R C :
  Ort.t_shape masks = [b; ch; r; c] ->
  Ort.t_data scores !! 0%nat = Some iou ->
  Model.resize_to {| Cv.frows := Int.to_int r; Cv.fcols := Int.to_int c;
                     Cv.fdata := Ort.t_data masks |} (Cv.size mask0) = Val logits ->
  0 <= R <= Int.INT_MAX -> 0 <= C <= Int.INT_MAX ->
  Cv.rows mask0 = R -> Cv.cols mask0 = C -> Cv.fcols logits = C ->
  Z.of_nat (length (Cv.data mask0)) = R * C ->
  R * C <= Z.of_nat (length (Cv.fdata logits)) ->
  exists mask,
    Model.postprocess (scores :: masks :: rest) mask0 = Val (mask, iou) /\
    Cv.channels mask = Cv.channels mask0 /\ Cv.rows mask = R /\ Cv.cols mask = C /\
    Z.of_nat (length (Cv.data mask)) = R * C /\
    forall k, 0 <= k < R * C ->
      Cv.data mask !! Z.to_nat k = Contract.threshold <$> Cv.fdata logits !! Z.to_nat k.
Proof.
  intros Hshape Hiou Hres HR HC Hr Hc Hfc Hlen Hlog.
  destruct (threshold_loops_val logits mask0 R C) as (mask & Hrun & Hmask); [done..|].
  exists mask. split; [|exact Hmask].
  unfold Model.postprocess.
  change (Vec.at_ outputTensorsSam_buf (scores :: masks :: rest) 1) with (Val masks).
  change (Vec.at_ outputTensorsSam_buf (scores :: masks :: rest) 0) with (Val scores).
  run_R. rewrite Hshape. shape_reads. rewrite Hres. cbn beta iota. rewrite Hrun.
  cbn beta iota. rewrite (Vec_at_Val _ _ 0 iou) by done. reflexivity.
Qed.

Lemma resize_to_cases {rt : Runtime} img dsize :
  (Cv.fsize img = dsize /\ Model.resize_to img dsize = Val img) \/
  (Cv.fsize img <> dsize /\
   Model.resize_to img dsize =
     match resize img dsize with Some resized => Val resized | None => Raise CvException end).
Proof.
  unfold Model.resize_to. case_bool_decide; cbn [negb]; [left|right]; done.
Qed.

Example world0_constructed : @Sam.new Fixture.strict Fixture.param = Val Fixture.world0.
Proof. reflexivity. Qed.

Example worldA_loaded :
  @Sam.loadImage Fixture.strict Fixture.imageA Fixture.world0 = (Val true, Fixture.worldA) /\
  outputTensorValuesPre (self Fixture.worldA) =
    [F32.div255 (F32.of_uchar Byte.xff); F32.div255 (F32.of_uchar Byte.x03)].
Proof. split; vm_compute; reflexivity. Qed.

(** C1, as the code has it: a [getMask] call that reaches the decoder
    invokes it once, with exactly three inputs named image_embeddings,
    point_coords and point_labels: the cached embedding with the
    embedding model's output shape, the coordinates with shape 1 x N x 2
    and the labels with shape 1 x N.  The mask prior, the has-mask flag
    and the image size are not among them. *)
Theorem getMask_decoder_inputs {rt : Runtime} points negativePoints roi out w n c H W s :
  inputShapePre (self w) = [n; c; H; W] ->
  0 <= H <= Int.INT_MAX -> 0 <= W <= Int.INT_MAX ->
  sessionSam (self w) = Some s ->
  let enc := Model.encode points negativePoints roi in
  let N := Vec.size (snd enc) in
  N <= Int.INT_MAX ->
  let embedding :=
    {| Ort.t_data := outputTensorValuesPre (self w);
       Ort.t_count := Vec.size (outputTensorValuesPre (self w));
       Ort.t_shape := outputShapePre (self w) |} in
  let coords := {| Ort.t_data := fst enc; Ort.t_count := Int.to_size_t (Int.to_int (2 * N));
                   Ort.t_shape := [1; N; 2] |} in
  let labels := {| Ort.t_data := snd enc; Ort.t_count := N; Ort.t_shape := [1; N] |} in
  tensor_ok embedding = true -> tensor_ok coords = true -> tensor_ok labels = true ->
  exists call,
    ort_log (snd (Model.getMask points negativePoints roi out w)) = ort_log w ++ [call] /\
    Ort.session call = s /\
    Ort.input_names call = ["image_embeddings"; "point_coords"; "point_labels"]%string /\
    Ort.inputs call = [embedding; coords; labels] /\
    Ort.inputs call = take 3 (Contract.decoder_inputs embedding coords labels H W) /\
    Vec.size (fst enc) = 2 * N /\
    (2 * N <= Int.INT_MAX -> Ort.t_count coords = 2 * N).
Proof.
  intros Hshape HH HW Hs enc N HN embedding coords labels He Hc Hl.
  assert (HNi : Int.to_int (Vec.size (snd enc)) = N).
  { apply to_int_fits. unfold Int.fits, Int.INT_MIN, Vec.size in *. lia. }
  assert (HNs : Int.to_size_t N = N).
  { apply to_size_t_small. unfold N, Vec.size, Int.INT_MAX in *. lia. }
  exists (Model.sam_call s [embedding; coords; labels]).
  rewrite (getMask_runs points negativePoints roi out w n c H W s); try done.
  - cbn [snd ort_log]. fold enc. rewrite HNi, HNs. fold embedding coords labels.
    split; [done|]. split; [done|]. split; [done|]. split; [done|]. split; [done|].
    split.
    + unfold Vec.size, N, Vec.size, enc. rewrite encode_lengths. lia.
    + intros H2. cbn [Ort.t_count coords].
      rewrite to_int_fits by (unfold Int.fits, Int.INT_MIN, N, Vec.size in *; lia).
      apply to_size_t_small. unfold N, Vec.size, Int.INT_MAX in *. lia.
  - fold enc. by rewrite HNi.
  - fold enc. by rewrite HNi, HNs.
Qed.

Lemma getMask_decoder_inputs_witness :
  exists call,
    ort_log (snd (@Model.getMask Fixture.strict [Fixture.p1; Fixture.p2] [Fixture.n1]
                    Fixture.box Cv.Mat0 Fixture.worldA)) = ort_log Fixture.worldA ++ [call] /\
    length (Ort.inputs call) = 3%nat.
Proof.
  destruct (@getMask_decoder_inputs Fixture.strict [Fixture.p1; Fixture.p2] [Fixture.n1]
              Fixture.box Cv.Mat0 Fixture.worldA 1 3 2 2
              {| Ort.path := Fixture.decoder_path; Ort.info := Fixture.decoder |})
    as (call & Hlog & _ & _ & Hin & _);
    [reflexivity | unfold Int.INT_MAX; lia | unfold Int.INT_MAX; lia | reflexivity
    | vm_compute; discriminate | reflexivity | reflexivity | reflexivity |].
  exists call. split; [exact Hlog|]. rewrite Hin. reflexivity.
Defined.

(** C1 as stated fails: with an image loaded and a point prompt, the
    one decoder call carries three tensors, not the six of the contract. *)
Lemma getMask_passes_three_inputs :
  let w' := snd (@Sam.getMask Fixture.strict [Fixture.p1] [] Cv.Rect0 Fixture.worldA) in
  map (fun call => (Ort.input_names call, length (Ort.inputs call))) (ort_log w') =
    [(["image"], 1%nat);
     (["image_embeddings"; "point_coords"; "point_labels"], 3%nat)]%string /\
  forall call e c l H W,
    last (ort_log w') = Some call ->
    Ort.inputs call <> Contract.decoder_inputs e c l H W.
Proof.
  split; [vm_compute; reflexivity|].
  intros call e c l H W Hlast Heq.
  apply (f_equal (fun o => length <$> (Ort.inputs <$> o))) in Hlast.
  cbn [fmap option_fmap option_map] in Hlast. rewrite Heq in Hlast.
  vm_compute in Hlast. discriminate.
Qed.

(** [getMask] stops at the first tensor the runtime refuses, before any
    call of the decoder. *)
Lemma getMask_embedding_refused {rt : Runtime} points negativePoints roi out w n c H W :
  inputShapePre (self w) = [n; c; H; W] ->
  tensor_ok {| Ort.t_data := outputTensorValuesPre (self w);
               Ort.t_count := Vec.size (outputTensorValuesPre (self w));
               Ort.t_shape := outputShapePre (self w) |} = false ->
  Model.getMask points negativePoints roi out w = (Raise OrtException, w).
Proof.
  intros Hshape He. unfold Model.getMask. run_M. rewrite Hshape. shape_reads.
  destruct (Model.encode points negativePoints roi) as [pv lv].
  unfold Model.CreateTensor at 1. rewrite He. reflexivity.
Qed.

(** C2, as the code has it: [getMask] does not look whether an image
    was loaded.  On an empty cache it builds the embedding input from
    the empty buffer (no element, the embedding model's output shape);
    when the runtime refuses that tensor its exception leaves [getMask]
    and the decoder is not invoked, otherwise the decoder is invoked
    with the empty embedding. *)
Theorem getMask_without_image {rt : Runtime} points negativePoints roi out w n c H W s :
  inputShapePre (self w) = [n; c; H; W] ->
  0 <= H <= Int.INT_MAX -> 0 <= W <= Int.INT_MAX ->
  sessionSam (self w) = Some s ->
  outputTensorValuesPre (self w) = [] ->
  let empty_embedding :=
    {| Ort.t_data := []; Ort.t_count := 0; Ort.t_shape := outputShapePre (self w) |} in
  let enc := Model.encode points negativePoints roi in
  let N := Int.to_int (Vec.size (snd enc)) in
  let coords := {| Ort.t_data := fst enc; Ort.t_count := Int.to_size_t (Int.to_int (2 * N));
                   Ort.t_shape := [1; N; 2] |} in
  let labels := {| Ort.t_data := snd enc; Ort.t_count := Int.to_size_t N;
                   Ort.t_shape := [1; N] |} in
  (tensor_ok empty_embedding = false ->
     Model.getMask points negativePoints roi out w = (Raise OrtException, w)) /\
  (tensor_ok empty_embedding = true -> tensor_ok coords = true -> tensor_ok labels = true ->
     ort_log (snd (Model.getMask points negativePoints roi out w)) =
       ort_log w ++ [Model.sam_call s [empty_embedding; coords; labels]]).
Proof.
  intros Hshape HH HW Hs Hcache empty_embedding enc N coords labels. split.
  - intros He. apply (getMask_embedding_refused _ _ _ _ _ n c H W); [done|].
    rewrite Hcache. exact He.
  - intros He Hc Hl.
    rewrite (getMask_runs points negativePoints roi out w n c H W s); try done.
    + cbn [snd ort_log]. by rewrite Hcache.
    + rewrite Hcache. exact He.
Qed.

Lemma getMask_without_image_witness :
  @Model.getMask Fixture.strict [Fixture.p1] [] Cv.Rect0 Cv.Mat0 Fixture.world0 =
    (Raise OrtException, Fixture.world0) /\
  length (ort_log (snd (@Model.getMask Fixture.lenient [Fixture.p1] [] Cv.Rect0 Cv.Mat0
                          Fixture.world0))) = 1%nat.
Proof.
  split.
  - apply (proj1 (@getMask_without_image Fixture.strict [Fixture.p1] [] Cv.Rect0 Cv.Mat0
                    Fixture.world0 1 3 2 2
                    {| Ort.path := Fixture.decoder_path; Ort.info := Fixture.decoder |}
                    eq_refl ltac:(unfold Int.INT_MAX; lia) ltac:(unfold Int.INT_MAX; lia)
                    eq_refl eq_refl)).
    reflexivity.
  - rewrite (proj2 (@getMask_without_image Fixture.lenient [Fixture.p1] [] Cv.Rect0 Cv.Mat0
                      Fixture.world0 1 3 2 2
                      {| Ort.path := Fixture.decoder_path; Ort.info := Fixture.decoder |}
                      eq_refl ltac:(unfold Int.INT_MAX; lia) ltac:(unfold Int.INT_MAX; lia)
                      eq_refl eq_refl) eq_refl eq_refl eq_refl).
    reflexivity.
Defined.

(** C2 as stated fails: on a freshly constructed session no
    precondition error is reported.  With a runtime that checks buffer
    sizes the call ends in the runtime's exception; with one that does
    not, the decoder is invoked on the empty embedding and a mask comes
    back. *)
Lemma getMask_before_loadImage_unguarded :
  @Sam.getMask Fixture.strict [Fixture.p1] [] Cv.Rect0 Fixture.world0 =
    (Raise OrtException, Fixture.world0) /\
  exists mask iou call,
    @Sam.getMask Fixture.lenient [Fixture.p1] [] Cv.Rect0 Fixture.world0 =
      (Val (mask, iou), {| self := self Fixture.world0; ort_log := [call] |}) /\
    Ort.input_names call = Model.inputNamesEdgeSam /\
    (Ort.t_data <$> head (Ort.inputs call)) = Some [].
Proof.
  split; [vm_compute; reflexivity|].
  eexists _, _, _. split; [vm_compute; reflexivity|]. split; reflexivity.
Qed.

(** C9: with no point and no box the encoded arrays are empty, nothing
    in [getMask] rejects the prompt, and the decoder is invoked, with a
    1 x 0 x 2 coordinate tensor and a 1 x 0 label tensor; what [getMask]
    returns is what [postprocess] makes of the decoder's answer. *)
Theorem getMask_empty_prompt {rt : Runtime} roi out w n c H W s :
  inputShapePre (self w) = [n; c; H; W] ->
  0 <= H <= Int.INT_MAX -> 0 <= W <= Int.INT_MAX ->
  sessionSam (self w) = Some s ->
  Cv.empty roi = true ->
  let embedding :=
    {| Ort.t_data := outputTensorValuesPre (self w);
       Ort.t_count := Vec.size (outputTensorValuesPre (self w));
       Ort.t_shape := outputShapePre (self w) |} in
  let coords := {| Ort.t_data := []; Ort.t_count := 0; Ort.t_shape := [1; 0; 2] |} in
  let labels := {| Ort.t_data := []; Ort.t_count := 0; Ort.t_shape := [1; 0] |} in
  tensor_ok embedding = true -> tensor_ok coords = true -> tensor_ok labels = true ->
  let mask0 :=
    if negb (Cv.is_8UC1 out)
       || negb (bool_decide (Cv.size out = {| Cv.width := W; Cv.height := H |}))
    then Cv.blank_8UC1 H W else out in
  let call := Model.sam_call s [embedding; coords; labels] in
  Model.encode [] [] roi = ([], []) /\
  Model.getMask [] [] roi out w =
    (match run_sam call with
     | Some outs => Model.postprocess outs mask0
     | None => Raise OrtException
     end,
     {| self := self w; ort_log := ort_log w ++ [call] |}).
Proof.
  intros Hshape HH HW Hs Hroi embedding coords labels He Hc Hl mask0 call.
  assert (Henc : Model.encode [] [] roi = ([], [])).
  { rewrite encode_contract. unfold Contract.box_of. by rewrite Hroi. }
  split; [exact Henc|].
  rewrite (getMask_runs [] [] roi out w n c H W s); try done; rewrite Henc; done.
Qed.

Lemma getMask_empty_prompt_witness :
  exists mask iou,
    fst (@Model.getMask Fixture.strict [] [] Cv.Rect0 Cv.Mat0 Fixture.worldA) =
      Val (mask, iou) /\
    length (ort_log (snd (@Model.getMask Fixture.strict [] [] Cv.Rect0 Cv.Mat0
                            Fixture.worldA))) = 2%nat.
Proof.
  pose proof (proj2 (@getMask_empty_prompt Fixture.strict Cv.Rect0 Cv.Mat0 Fixture.worldA
                       1 3 2 2
                       {| Ort.path := Fixture.decoder_path; Ort.info := Fixture.decoder |}
                       eq_refl ltac:(unfold Int.INT_MAX; lia) ltac:(unfold Int.INT_MAX; lia)
                       eq_refl eq_refl eq_refl eq_refl eq_refl)) as Hrun.
  rewrite Hrun. eexists _, _. split; vm_compute; reflexivity.
Defined.

(** C6: the decoder's logits are brought to the image size first (by
    [cv::resize] when their size differs, unchanged otherwise) and
    thresholded second, with no sigmoid: the mask is single-channel, has
    the image's rows and columns, and its pixel (i, j) is 255 when the
    logit at (i, j) of the resized logits is greater than 0 and 0
    otherwise, so every pixel is 0 or 255. *)
Theorem getMask_threshold {rt : Runtime} points negativePoints roi out w n c H W s
    scores masks rest b ch r cl iou :
  inputShapePre (self w) = [n; c; H; W] ->
  0 <= H <= Int.INT_MAX -> 0 <= W <= Int.INT_MAX ->
  sessionSam (self w) = Some s ->
  Cv.continuous out ->
  let enc := Model.encode points negativePoints roi in
  let N := Int.to_int (Vec.size (snd enc)) in
  let embedding :=
    {| Ort.t_data := outputTensorValuesPre (self w);
       Ort.t_count := Vec.size (outputTensorValuesPre (self w));
       Ort.t_shape := outputShapePre (self w) |} in
  let coords := {| Ort.t_data := fst enc; Ort.t_count := Int.to_size_t (Int.to_int (2 * N));
                   Ort.t_shape := [1; N; 2] |} in
  let labels := {| Ort.t_data := snd enc; Ort.t_count := Int.to_size_t N;
                   Ort.t_shape := [1; N] |} in
  tensor_ok embedding = true -> tensor_ok coords = true -> tensor_ok labels = true ->
  run_sam (Model.sam_call s [embedding; coords; labels]) = Some (scores :: masks :: rest) ->
  Ort.t_shape masks = [b; ch; r; cl] ->
  Ort.t_data scores !! 0%nat = Some iou ->
  let raw := {| Cv.frows := Int.to_int r; Cv.fcols := Int.to_int cl;
                Cv.fdata := Ort.t_data masks |} in
  let image_size := {| Cv.width := W; Cv.height := H |} in
  (Cv.fsize raw = image_size -> H * W <= Vec.size (Ort.t_data masks)) ->
  (Cv.fsize raw <> image_size ->
     exists resized, resize raw image_size = Some resized /\
       Cv.fsize resized = image_size /\ Vec.size (Cv.fdata resized) = H * W) ->
  exists mask logits,
    fst (Model.getMask points negativePoints roi out w) = Val (mask, iou) /\
    (Cv.fsize raw = image_size -> logits = raw) /\
    (Cv.fsize raw <> image_size -> resize raw image_size = Some logits) /\
    Cv.channels mask = 1 /\ Cv.rows mask = H /\ Cv.cols mask = W /\
    Vec.size (Cv.data mask) = H * W /\
    (forall i j, 0 <= i < H -> 0 <= j < W ->
       exists x, Cv.at_float logits i j = Val x /\
         Cv.data mask !! Z.to_nat (i * W + j) =
           Some (if F32.gt0 x then Byte.xff else Byte.x00)) /\
    Forall (fun px => px = Byte.x00 \/ px = Byte.xff) (Cv.data mask).
Proof.
  intros Hshape HH HW Hs Hout enc N embedding coords labels He Hc Hl Hrun Hmshape Hiou
    raw image_size Hsame Hdiff.
  rewrite (getMask_runs points negativePoints roi out w n c H W s); try done.
  fold enc N embedding coords labels. rewrite Hrun. cbn [fst].
  set (mask0 := if _ || _ then _ else _).
  assert (Hm0 : Cv.channels mask0 = 1 /\ Cv.rows mask0 = H /\ Cv.cols mask0 = W /\
                Z.of_nat (length (Cv.data mask0)) = H * W /\ Cv.size mask0 = image_size).
  { subst mask0. destruct (negb (Cv.is_8UC1 out)) eqn:H8; cbn [orb].
    - cbn. rewrite length_replicate. repeat split. nia.
    - case_bool_decide as Hsz; cbn [negb].
      + apply negb_false_iff, Z.eqb_eq in H8.
        unfold Cv.size in Hsz. injection Hsz as Hw Hh.
        unfold Cv.continuous in Hout. rewrite H8, Hw, Hh in Hout.
        repeat split; try done. * lia. * unfold Cv.size. by rewrite Hw, Hh.
      + cbn. rewrite length_replicate. repeat split. nia. }
  destruct Hm0 as (Hch0 & Hr0 & Hc0 & Hl0 & Hsz0).
  assert (Hlog : exists logits,
    Model.resize_to raw (Cv.size mask0) = Val logits /\
    (Cv.fsize raw = image_size -> logits = raw) /\
    (Cv.fsize raw <> image_size -> resize raw image_size = Some logits) /\
    Cv.fcols logits = W /\ H * W <= Z.of_nat (length (Cv.fdata logits))).
  { rewrite Hsz0.
    destruct (resize_to_cases raw image_size) as [[Heq Hres]|[Hne Hres]].
    - exists raw. repeat split; try done.
      + by apply (f_equal Cv.width) in Heq.
      + by apply Hsame.
    - destruct (Hdiff Hne) as (resized & Hrs & Hfs & Hlen).
      exists resized. rewrite Hres, Hrs. repeat split; try done.
      + by apply (f_equal Cv.width) in Hfs.
      + unfold Vec.size in Hlen. lia. }
  destruct Hlog as (logits & Hres & Hraw & Hrsz & Hfc & Hlen).
  destruct (postprocess_val scores masks rest mask0 b ch r cl iou logits H W)
    as (mask & Hpost & Hmch & Hmr & Hmc & Hml & Hpix); try done.
  exists mask, logits. rewrite Hpost.
  repeat split; try done; try congruence.
  - intros i j Hi Hj.
    assert (Hk : 0 <= i * W + j < H * W) by nia.
    destruct (lookup_lt_is_Some_2 (Cv.fdata logits) (Z.to_nat (i * W + j))) as [x Hx]; [lia|].
    exists x. split.
    + unfold Cv.at_float. rewrite Hfc. apply Vec_at_Val; [lia|done].
    + rewrite Hpix by done. by rewrite Hx.
  - apply Forall_lookup. intros k px Hk.
    assert (Hkl : (k < length (Cv.data mask))%nat) by (eapply lookup_lt_Some; eauto).
    specialize (Hpix (Z.of_nat k)). rewrite Nat2Z.id in Hpix.
    rewrite Hpix in Hk by lia.
    destruct (Cv.fdata logits !! k) as [x|]; [|done].
    injection Hk as <-. unfold Contract.threshold. destruct (F32.gt0 x); auto.
Qed.

Lemma getMask_threshold_witness :
  exists mask,
    fst (@Model.getMask (Fixture.lowres 5) [] [] Cv.Rect0 Cv.Mat0 Fixture.worldA) =
      Val (mask, F32.of_int 1) /\
    Cv.rows mask = 2 /\ Cv.cols mask = 2 /\
    Cv.data mask !! 3%nat = Some Byte.xff.
Proof.
  edestruct (@getMask_threshold (Fixture.lowres 5) [] [] Cv.Rect0 Cv.Mat0 Fixture.worldA
               1 3 2 2 {| Ort.path := Fixture.decoder_path; Ort.info := Fixture.decoder |})
    as (mask & logits & Hrun & _ & Hres & _ & Hr & Hc & _ & Hpix & _).
  - reflexivity.
  - unfold Int.INT_MAX; lia.
  - unfold Int.INT_MAX; lia.
  - reflexivity.
  - reflexivity.
  - reflexivity.
  - reflexivity.
  - reflexivity.
  - reflexivity.
  - reflexivity.
  - reflexivity.
  - intros Heq. vm_compute in Heq. discriminate.
  - intros _. eexists. split; [reflexivity|]. split; reflexivity.
  - exists mask. split; [exact Hrun|]. split; [exact Hr|]. split; [exact Hc|].
    destruct (Hpix 1 1) as (x & Hx & Hm); [lia|lia|].
    assert (Hl : resize (Runtime := Fixture.lowres 5)
                   {| Cv.frows := Int.to_int 1; Cv.fcols := Int.to_int 1;
                      Cv.fdata := [F32.of_int 5] |}
                   {| Cv.width := 2; Cv.height := 2 |} = Some logits).
    { apply Hres. intros Heq. vm_compute in Heq. discriminate. }
    vm_compute in Hl. injection Hl as <-.
    vm_compute in Hx. injection Hx as <-. exact Hm.
Defined.

(** The threshold on logits -1 and +1, without a resize. *)
Example getMask_minus_plus_one :
  exists mask iou,
    fst (@Sam.getMask Fixture.strict [Fixture.p1] [] Cv.Rect0 Fixture.worldA) =
      Val (mask, iou) /\
    take 2 (Cv.data mask) = [Byte.x00; Byte.xff].
Proof. eexists _, _. split; vm_compute; reflexivity. Qed.

(** ** Inversion and preservation for [loadImage] *)

(** What a [loadImage] that returned true has done. *)
Lemma loadImage_true_inv {rt : Runtime} image w w' n c H W :
  inputShapePre (self w) = [n; c; H; W] ->
  Model.loadImage image w = (Val true, w') ->
  exists t s output,
    Model.preprocess [n; c; H; W] image = Val t /\
    sessionPre (self w) = Some s /\
    let call := Model.pre_call s
                  {| Ort.t_data := t; Ort.t_count := Vec.size t;
                     Ort.t_shape := [n; c; H; W] |} output in
    fst (run_pre call) = true /\
    w' = {| self := Model.set_cache (self w) (snd (run_pre call));
            ort_log := ort_log w ++ [call] |}.
Proof.
  intros Hshape. unfold Model.loadImage. run_M. rewrite Hshape. shape_reads.
  case_bool_decide as Hsz; cbn [negb]; [|congruence].
  destruct (Z.eqb_spec (Cv.channels image) 3) as [Hch|]; cbn [negb]; [|congruence].
  destruct (Model.preprocess [n; c; H; W] image) as [t|] eqn:Hp; [|congruence].
  unfold Model.CreateTensor at 1. destruct (tensor_ok _); [|congruence].
  destruct (Vec.at_ outputShapePre_buf (outputShapePre (self w)) 0); [|congruence].
  destruct (Vec.at_ outputShapePre_buf (outputShapePre (self w)) 1); [|congruence].
  destruct (Vec.at_ outputShapePre_buf (outputShapePre (self w)) 2); [|congruence].
  destruct (Vec.at_ outputShapePre_buf (outputShapePre (self w)) 3); [|congruence].
  destruct (Vec.make _) as [buf|]; [|congruence].
  unfold Model.CreateTensor. destruct (tensor_ok _); [|congruence].
  unfold Model.Run_pre. cbn [self ort_log Model.set_cache sessionPre].
  destruct (sessionPre (self w)) as [s|]; [|congruence].
  destruct (run_pre _) as [ok emb] eqn:Hrun. destruct ok; [|congruence].
  intros [= <-]. eexists t, s, _. split; [done|]. split; [done|].
  cbn zeta. rewrite Hrun. split; reflexivity.
Qed.

(** [loadImage] writes the cache and the log, nothing else. *)
Lemma loadImage_preserves {rt : Runtime} image w :
  let m' := self (snd (Model.loadImage image w)) in
  inputShapePre m' = inputShapePre (self w) /\
  outputShapePre m' = outputShapePre (self w) /\
  sessionPre m' = sessionPre (self w) /\
  sessionSam m' = sessionSam (self w) /\
  bModelLoaded m' = bModelLoaded (self w).
Proof.
  unfold Model.loadImage. run_M.
  destruct (Vec.at_ inputShapePre_buf (inputShapePre (self w)) 3); [|done].
  destruct (Vec.at_ inputShapePre_buf (inputShapePre (self w)) 2); [|done].
  destruct (negb (bool_decide _)); [done|].
  destruct (negb (Cv.channels image =? 3)); [done|].
  destruct (Model.preprocess _ _); [|done].
  destruct (Model.CreateTensor _ _ _); [|done].
  destruct (Vec.at_ outputShapePre_buf (outputShapePre (self w)) 0); [|done].
  destruct (Vec.at_ outputShapePre_buf (outputShapePre (self w)) 1); [|done].
  destruct (Vec.at_ outputShapePre_buf (outputShapePre (self w)) 2); [|done].
  destruct (Vec.at_ outputShapePre_buf (outputShapePre (self w)) 3); [|done].
  destruct (Vec.make _); [|done].
  destruct (Model.CreateTensor _ _ _); [|done].
  unfold Model.Run_pre. cbn [self ort_log Model.set_cache sessionPre].
  destruct (sessionPre (self w)) eqn:Hs; [|cbn; done].
  destruct (run_pre _) as [[] emb]; cbn; done.
Qed.

(** Every call [getMask] logs is a decoder call whose first input
    aliases the embedding cache. *)
Lemma getMask_log_cases {rt : Runtime} points negativePoints roi out w :
  let w' := snd (Model.getMask points negativePoints roi out w) in
  self w' = self w /\
  (ort_log w' = ort_log w \/
   exists s coords labels,
     ort_log w' = ort_log w ++
       [Model.sam_call s
          [{| Ort.t_data := outputTensorValuesPre (self w);
              Ort.t_count := Vec.size (outputTensorValuesPre (self w));
              Ort.t_shape := outputShapePre (self w) |}; coords; labels]]).
Proof.
  unfold Model.getMask. run_M.
  destruct (Vec.at_ inputShapePre_buf (inputShapePre (self w)) 2); [|auto].
  destruct (Vec.at_ inputShapePre_buf (inputShapePre (self w)) 3); [|auto].
  destruct (Model.encode points negativePoints roi) as [pv lv].
  unfold Model.CreateTensor.
  destruct (tensor_ok _); [|auto].
  destruct (tensor_ok _); [|auto].
  destruct (tensor_ok _); [|auto].
  match goal with |- context [if ?b then Cv.create_8UC1 _ _ else _] => destruct b end.
  - destruct (Cv.create_8UC1 _ _); [|auto].
    unfold Model.Run_sam. destruct (sessionSam (self w)); [|auto].
    destruct (run_sam _); cbn; eauto 6.
  - unfold Model.Run_sam. destruct (sessionSam (self w)); [|auto].
    destruct (run_sam _); cbn; eauto 6.
Qed.

(** C3: after a successful [loadImage(A)], a [loadImage(B)] that fails
    the size or the channel check returns false and leaves the whole
    object, the embedding cache included, as it was; every later
    [getMask] behaves as before the failed load, and the decoder call it
    makes reads the embedding computed for A. *)
Theorem failed_loadImage_keeps_embedding {rt : Runtime} A B w wA n c H W :
  inputShapePre (self w) = [n; c; H; W] ->
  Model.loadImage A w = (Val true, wA) ->
  Cv.size B <> Cv.mkSize W H \/ Cv.channels B <> 3 ->
  exists t s output,
    let callA := Model.pre_call s
                   {| Ort.t_data := t; Ort.t_count := Vec.size t;
                      Ort.t_shape := [n; c; H; W] |} output in
    Model.preprocess [n; c; H; W] A = Val t /\
    outputTensorValuesPre (self wA) = snd (run_pre callA) /\
    Model.loadImage B wA = (Val false, wA) /\
    forall points negativePoints roi out,
      let wB := snd (Model.loadImage B wA) in
      outputTensorValuesPre (self wB) = snd (run_pre callA) /\
      Model.getMask points negativePoints roi out wB =
        Model.getMask points negativePoints roi out wA /\
      forall call,
        ort_log (snd (Model.getMask points negativePoints roi out wB)) =
          ort_log wB ++ [call] ->
        Ort.t_data <$> head (Ort.inputs call) = Some (snd (run_pre callA)).
Proof.
  intros Hshape HA HB.
  destruct (loadImage_true_inv A w wA n c H W Hshape HA)
    as (t & s & output & Hpre & Hs & _ & HwA).
  exists t, s, output. cbn zeta.
  assert (Hcache : outputTensorValuesPre (self wA) =
                   snd (run_pre (Model.pre_call s
                     {| Ort.t_data := t; Ort.t_count := Vec.size t;
                        Ort.t_shape := [n; c; H; W] |} output))).
  { rewrite HwA. reflexivity. }
  assert (HshapeA : inputShapePre (self wA) = [n; c; H; W]).
  { rewrite HwA. exact Hshape. }
  assert (Hrej : Model.loadImage B wA = (Val false, wA)).
  { apply (loadImage_rejects B wA n c H W); done. }
  repeat split; try done.
  - rewrite Hrej. exact Hcache.
  - by rewrite Hrej.
  - rewrite Hrej. cbn [snd]. intros call Hlog.
    destruct (getMask_log_cases points negativePoints roi out wA) as [_ [Hsame|Hcall]].
    + rewrite Hsame in Hlog. apply (f_equal length) in Hlog.
      rewrite length_app in Hlog. cbn in Hlog. lia.
    + destruct Hcall as (s' & coords & labels & Hcall). rewrite Hcall in Hlog.
      apply app_inj_tail in Hlog as [_ <-]. cbn. by rewrite Hcache.
Qed.

Lemma failed_loadImage_keeps_embedding_witness :
  @Model.loadImage Fixture.strict Fixture.imageB Fixture.worldA = (Val false, Fixture.worldA) /\
  @Model.loadImage Fixture.strict Fixture.imageGray Fixture.worldA =
    (Val false, Fixture.worldA).
Proof.
  split.
  - destruct (@failed_loadImage_keeps_embedding Fixture.strict Fixture.imageA Fixture.imageB
                Fixture.world0 Fixture.worldA 1 3 2 2 eq_refl)
      as (t & s & output & _ & _ & Hrej & _).
    + vm_compute. reflexivity.
    + left. vm_compute. discriminate.
    + exact Hrej.
  - destruct (@failed_loadImage_keeps_embedding Fixture.strict Fixture.imageA
                Fixture.imageGray Fixture.world0 Fixture.worldA 1 3 2 2 eq_refl)
      as (t & s & output & _ & _ & Hrej & _).
    + vm_compute. reflexivity.
    + right. vm_compute. discriminate.
    + exact Hrej.
Defined.

(** ** Construction *)

(** The ways the constructor ends. *)
Lemma new_cases {rt : Runtime} param m :
  Model.new param = Val m ->
  (bModelLoaded m = true /\
   exists pre sam,
     open_session (fst (models param)) = Some pre /\
     open_session (snd (models param)) = Some sam /\
     sessionPre m = Some {| Ort.path := fst (models param); Ort.info := pre |} /\
     sessionSam m = Some {| Ort.path := snd (models param); Ort.info := sam |} /\
     inputShapePre m = Ort.InputShape0 pre /\ outputShapePre m = Ort.OutputShape0 pre /\
     length (inputShapePre m) = 4%nat /\ length (outputShapePre m) = 4%nat /\
     outputTensorValuesPre m = []) \/
  (bModelLoaded m = false /\ inputShapePre m = [] /\ outputShapePre m = [] /\
   (sessionSam m = None \/
    exists sam, open_session (snd (models param)) = Some sam /\
                Ort.GetInputCount sam <> 3)) \/
  (bModelLoaded m = false /\
   exists pre,
     open_session (fst (models param)) = Some pre /\
     inputShapePre m = Ort.InputShape0 pre /\ outputShapePre m = Ort.OutputShape0 pre /\
     is_Some (sessionPre m) /\ is_Some (sessionSam m) /\
     (length (inputShapePre m) <> 4%nat \/ length (outputShapePre m) <> 4%nat)).
Proof.
  unfold Model.new.
  destruct (negb (Model.files_found _)).
  { intros [= <-]. right. left. cbn. auto. }
  destruct (open_session (fst (models param))) as [pre|] eqn:Hpre; [|discriminate].
  destruct (negb (Ort.GetInputCount pre =? 1) || negb (Ort.GetOutputCount pre =? 1)).
  { intros [= <-]. right. left. cbn. auto. }
  destruct (open_session (snd (models param))) as [sam|] eqn:Hsam; [|discriminate].
  destruct (Z.eqb_spec (Ort.GetInputCount sam) 3) as [H3|H3]; cbn [negb].
  2: { intros [= <-]. right. left. cbn. repeat split; try done. right. by exists sam. }
  unfold Vec.size.
  destruct (Z.eqb_spec (Z.of_nat (length (Ort.InputShape0 pre))) 4) as [Hi|Hi]; cbn [negb orb].
  2: { intros [= <-]. right. right. cbn. split; [done|]. exists pre.
       repeat split; eauto. left. lia. }
  destruct (Z.eqb_spec (Z.of_nat (length (Ort.OutputShape0 pre))) 4) as [Ho|Ho]; cbn [negb].
  2: { intros [= <-]. right. right. cbn. split; [done|]. exists pre.
       repeat split; eauto. right. lia. }
  intros [= <-]. left. cbn. split; [done|]. exists pre, sam.
  repeat split; try done; lia.
Qed.

Lemma length4_inv {A} (l : list A) :
  length l = 4%nat -> exists a b c d, l = [a; b; c; d].
Proof.
  destruct l as [|a [|b [|c [|d [|e l]]]]]; try discriminate. intros _. by exists a, b, c, d.
Qed.

(** Past the two checks [loadImage] returns true or does not return. *)
Lemma loadImage_valid_not_false {rt : Runtime} image w n c H W :
  inputShapePre (self w) = [n; c; H; W] ->
  Cv.size image = Cv.mkSize W H -> Cv.channels image = 3 ->
  fst (Model.loadImage image w) <> Val false.
Proof.
  intros Hshape Hsz Hch. unfold Model.loadImage. run_M. rewrite Hshape. shape_reads.
  rewrite bool_decide_true by done. rewrite Hch. cbn [negb Z.eqb Pos.eqb].
  destruct (Model.preprocess _ _); [|done].
  destruct (Model.CreateTensor _ _ _); [|done].
  destruct (Vec.at_ outputShapePre_buf (outputShapePre (self w)) 0); [|done].
  destruct (Vec.at_ outputShapePre_buf (outputShapePre (self w)) 1); [|done].
  destruct (Vec.at_ outputShapePre_buf (outputShapePre (self w)) 2); [|done].
  destruct (Vec.at_ outputShapePre_buf (outputShapePre (self w)) 3); [|done].
  destruct (Vec.make _); [|done].
  destruct (Model.CreateTensor _ _ _); [|done].
  unfold Model.Run_pre. cbn [self ort_log Model.set_cache sessionPre].
  destruct (sessionPre (self w)); [|done].
  destruct (run_pre _) as [[] emb]; done.
Qed.



(** For a model whose declared input holds at least three planes, and
    an accepted image, the tensor given to the embedding model
    has the model's input shape and is planar: plane [ch] (0, 1, 2)
    holds at row-major position (i, j) the image's channel [2 - ch] at
    that pixel, divided by 255, so the channel order is reversed and
    every value lies in [[0, 1]].  When the run returns, [loadImage]
    returns true and the cache holds what the model wrote to its single
    output, whatever it held before. *)
Theorem loadImage_embeds {rt : Runtime} image w n c H W o0 o1 o2 o3 s :
  inputShapePre (self w) = [n; c; H; W] ->
  3 <= n * c ->
  0 <= H <= Int.INT_MAX -> 0 <= W <= Int.INT_MAX ->
  outputShapePre (self w) = [o0; o1; o2; o3] ->
  0 <= o0 * o1 * o2 * o3 ->
  sessionPre (self w) = Some s ->
  Cv.size image = Cv.mkSize W H -> Cv.channels image = 3 -> Cv.continuous image ->
  (forall d, Vec.size d = n * c * H * W ->
     tensor_ok {| Ort.t_data := d; Ort.t_count := Vec.size d;
                  Ort.t_shape := [n; c; H; W] |} = true) ->
  let buf := replicate (Z.to_nat (o0 * o1 * o2 * o3)) F32.zero in
  let output := {| Ort.t_data := buf; Ort.t_count := Vec.size buf;
                   Ort.t_shape := [o0; o1; o2; o3] |} in
  tensor_ok output = true ->
  exists t,
    Vec.size t = n * c * H * W /\
    (forall ch i j, 0 <= ch < 3 -> 0 <= i < H -> 0 <= j < W ->
       exists px, Cv.at_Vec3b image i j (2 - ch) = Val px /\
         t !! Z.to_nat (ch * (H * W) + i * W + j) = Some (F32.div255 (F32.of_uchar px))) /\
    Forall (fun x => F32.leb F32.zero x = true /\ F32.leb x (F32.of_int 1) = true) t /\
    let call := Model.pre_call s
                  {| Ort.t_data := t; Ort.t_count := Vec.size t;
                     Ort.t_shape := [n; c; H; W] |} output in
    Model.loadImage image w =
      (if fst (run_pre call) then Val true else Raise OrtException,
       {| self := Model.set_cache (self w) (snd (run_pre call));
          ort_log := ort_log w ++ [call] |}) /\
    (fst (run_pre call) = true ->
       outputTensorValuesPre (self (snd (Model.loadImage image w))) = snd (run_pre call)).
Proof.
  intros Hshape Hnc HH HW Hoshape Hprod Hs Hsize Hch Hcont Hin buf output Hout.
  assert (Hsz := Hsize). rewrite mkSize_fits in Hsz by done.
  unfold Cv.size in Hsz. injection Hsz as Hcols Hrows.
  assert (Hlen : Z.of_nat (length (Cv.data image)) = H * W * 3).
  { unfold Cv.continuous in Hcont. by rewrite Hcont, Hrows, Hcols, Hch. }
  destruct (preprocess_val n c H W image) as (t & Hpre & Hlt & Hunit & Hpix); try done.
  exists t. split; [done|]. split; [|split; [done|]].
  - intros ch i j Hc Hi Hj.
    assert (Hk : 0 <= i * W + j < H * W) by nia.
    destruct (Vec_at_lt image_buf (Cv.data image) ((i * W + j) * 3 + (2 - ch)))
      as (px & _ & Hpx); [lia|].
    exists px. assert (Hat : Cv.at_Vec3b image i j (2 - ch) = Val px).
    { unfold Cv.at_Vec3b. by rewrite Hcols. }
    split; [done|]. by apply Hpix.
  - cbn zeta.
    assert (Hrun := loadImage_runs image w n c H W o0 o1 o2 o3 s t Hshape Hoshape Hs Hsize
                      Hch Hpre Hprod (Hin t Hlt) Hout).
    cbn zeta in Hrun. fold buf output in Hrun. split; [exact Hrun|].
    intros _. rewrite Hrun. reflexivity.
Qed.

Lemma loadImage_embeds_witness :
  exists t,
    Vec.size t = 12 /\
    t !! 0%nat = Some (F32.div255 (F32.of_uchar Byte.xff)) /\
    t !! 8%nat = Some (F32.div255 (F32.of_uchar Byte.x00)) /\
    fst (@Model.loadImage Fixture.strict Fixture.imageA Fixture.world0) = Val true.
Proof.
  destruct (@loadImage_embeds Fixture.strict Fixture.imageA Fixture.world0 1 3 2 2 1 2 1 1
              {| Ort.path := Fixture.encoder_path; Ort.info := Fixture.encoder |})
    as (t & Hlen & Hpix & _ & Hrun & _).
  - reflexivity.
  - lia.
  - unfold Int.INT_MAX; lia.
  - unfold Int.INT_MAX; lia.
  - reflexivity.
  - lia.
  - reflexivity.
  - reflexivity.
  - reflexivity.
  - reflexivity.
  - intros d Hd. unfold tensor_ok, Fixture.strict, Fixture.enough_space.
    cbn [Ort.t_shape Ort.t_count]. rewrite Hd. reflexivity.
  - reflexivity.
  - exists t. split; [exact Hlen|].
    destruct (Hpix 0 0 0) as (px0 & Hat0 & Ht0); [lia..|].
    destruct (Hpix 2 0 0) as (px2 & Hat2 & Ht2); [lia..|].
    vm_compute in Hat0. injection Hat0 as <-.
    vm_compute in Hat2. injection Hat2 as <-.
    split; [exact Ht0|]. split; [exact Ht2|].
    rewrite Hrun. reflexivity.
Defined.

(** The first pixel already leaves a tensor buffer of fewer than three
    planes: the write of plane 0, 1 or 2 at that pixel is past its end. *)
Lemma store_pixel_short image H W (v : list F32.float) k :
  0 < H -> 0 < W ->
  Cv.cols image = W ->
  Z.of_nat (length (Cv.data image)) = H * W * 3 ->
  0 <= k < 3 -> Z.of_nat (length v) = k * (H * W) ->
  Model.store_pixel image H W 0 0 v = Raise (OutOfBounds inputTensorValuesFloat_buf).
Proof.
  intros HH HW Hcols Hlen Hk Hv.
  assert (Hpos : 0 < H * W) by nia.
  unfold Model.store_pixel, Cv.at_Vec3b. rewrite Hcols.
  destruct (Vec_at_lt image_buf (Cv.data image) ((0 * W + 0) * 3 + 2)) as (c2 & _ & E2); [lia|].
  destruct (Vec_at_lt image_buf (Cv.data image) ((0 * W + 0) * 3 + 1)) as (c1 & _ & E1); [lia|].
  destruct (Vec_at_lt image_buf (Cv.data image) ((0 * W + 0) * 3 + 0)) as (c0 & _ & E0); [lia|].
  rewrite E2, E1, E0. run_R.
  assert (k = 0 \/ k = 1 \/ k = 2) as [-> | [-> | ->]] by lia.
  - unfold Vec.set at 1. rewrite decide_False by lia. reflexivity.
  - rewrite Vec_set_Val by lia. cbn beta iota.
    unfold Vec.set at 1. rewrite decide_False by (rewrite length_insert; lia). reflexivity.
  - rewrite Vec_set_Val by lia. cbn beta iota.
    rewrite Vec_set_Val by (rewrite length_insert; lia). cbn beta iota.
    unfold Vec.set. rewrite decide_False by (rewrite !length_insert; lia). reflexivity.
Qed.

(** C8 fails on the code when the embedding model declares fewer than
    three planes (batch x channel below 3), a shape the constructor
    accepts since it checks the rank only: [loadImage] passes every
    three-channel image of the right size, sizes the tensor buffer from
    the declared shape and then writes three planes into it; the write
    at the first pixel is past the end of the buffer, and no tensor is
    built. *)
Theorem loadImage_fewer_planes_out_of_bounds {rt : Runtime} image w n c H W :
  inputShapePre (self w) = [n; c; H; W] ->
  0 <= n * c < 3 ->
  0 < H <= Int.INT_MAX -> 0 < W <= Int.INT_MAX ->
  Cv.size image = Cv.mkSize W H -> Cv.channels image = 3 -> Cv.continuous image ->
  Model.loadImage image w = (Raise (OutOfBounds inputTensorValuesFloat_buf), w).
Proof.
  intros Hshape Hnc HH HW Hsize Hch Hcont.
  assert (Hsz := Hsize). rewrite mkSize_fits in Hsz by lia.
  unfold Cv.size in Hsz. injection Hsz as Hcols Hrows.
  assert (Hlen : Z.of_nat (length (Cv.data image)) = H * W * 3).
  { unfold Cv.continuous in Hcont. by rewrite Hcont, Hrows, Hcols, Hch. }
  assert (Hpre : Model.preprocess [n; c; H; W] image =
                 Raise (OutOfBounds inputTensorValuesFloat_buf)).
  { unfold Model.preprocess. shape_reads. run_R.
    rewrite Vec_make_Val by nia. run_R.
    unfold for_lt at 1. rewrite decide_True by lia.
    destruct (Z.to_nat H) as [|h] eqn:Hh; [lia|]. cbn [for_range]. run_R.
    unfold for_lt at 1. rewrite decide_True by lia.
    destruct (Z.to_nat W) as [|w'] eqn:Hw; [lia|]. cbn [for_range]. run_R.
    rewrite (store_pixel_short image H W _ (n * c)); [reflexivity|lia|lia|done|done|done|].
    rewrite length_replicate. nia. }
  unfold Model.loadImage. run_M. rewrite Hshape. shape_reads.
  rewrite bool_decide_true by done. rewrite Hch. cbn [negb Z.eqb Pos.eqb].
  rewrite Hpre. reflexivity.
Qed.

Lemma loadImage_fewer_planes_out_of_bounds_witness :
  @Sam.new GrayFixture.gray Fixture.param = Val GrayFixture.world /\
  bModelLoaded (self GrayFixture.world) = true /\
  @Sam.loadImage GrayFixture.gray Fixture.imageA GrayFixture.world =
    (Raise (OutOfBounds inputTensorValuesFloat_buf), GrayFixture.world).
Proof.
  split; [reflexivity|]. split; [reflexivity|].
  apply (@loadImage_fewer_planes_out_of_bounds GrayFixture.gray Fixture.imageA
           GrayFixture.world 1 1 2 2).
  - reflexivity.
  - lia.
  - unfold Int.INT_MAX; lia.
  - unfold Int.INT_MAX; lia.
  - reflexivity.
  - reflexivity.
  - reflexivity.
Defined.

(** ** Which faults the two operations can end in *)

Lemma preprocess_fault n c H W image f :
  Model.preprocess [n; c; H; W] image = Raise f -> construction_fault f = false.
Proof.
  unfold Model.preprocess. shape_reads. run_R.
  destruct (Vec.make _) as [v|e] eqn:Hmake.
  - destruct (for_lt H _ v) as [v'|e] eqn:Hloop; [discriminate|].
    intros [= <-]. revert Hloop.
    apply (for_lt_raise (fun f => construction_fault f = false)); [done|].
    intros i t f. apply (for_lt_raise (fun f => construction_fault f = false)); [done|].
    intros j u g. unfold Model.store_pixel, Cv.at_Vec3b. run_R.
    repeat match goal with
    | |- context [match Vec.at_ ?b ?v ?k with _ => _ end] =>
        let E := fresh "E" in
        destruct (Vec.at_ b v k) eqn:E;
          [|apply Vec_at_raise in E; subst; by intros [= <-]]
    | |- context [match Vec.set ?b ?v ?k ?x with _ => _ end] =>
        let E := fresh "E" in
        destruct (Vec.set b v k x) eqn:E;
          [|apply Vec_set_raise in E; subst; by intros [= <-]]
    end.
    intros Elast. apply Vec_set_raise in Elast. by subst.
  - intros [= <-]. unfold Vec.make in Hmake. case_decide; [discriminate|].
    by injection Hmake as <-.
Qed.

Lemma loadImage_fault {rt : Runtime} image w n c H W o0 o1 o2 o3 s f :
  inputShapePre (self w) = [n; c; H; W] ->
  outputShapePre (self w) = [o0; o1; o2; o3] ->
  sessionPre (self w) = Some s ->
  fst (Model.loadImage image w) = Raise f -> construction_fault f = false.
Proof.
  intros Hshape Hoshape Hs. unfold Model.loadImage. run_M.
  rewrite Hshape, Hoshape. shape_reads.
  destruct (negb (bool_decide _)); [discriminate|].
  destruct (negb (Cv.channels image =? 3)); [discriminate|].
  destruct (Model.preprocess _ _) as [t|e] eqn:Hp.
  2: { intros [= <-]. by apply preprocess_fault in Hp. }
  unfold Model.CreateTensor at 1. destruct (tensor_ok _); [|by intros [= <-]].
  destruct (Vec.make _) as [buf|e] eqn:Hmake.
  2: { intros [= <-]. unfold Vec.make in Hmake. case_decide; [discriminate|].
       by injection Hmake as <-. }
  unfold Model.CreateTensor. destruct (tensor_ok _); [|by intros [= <-]].
  unfold Model.Run_pre. cbn [self ort_log Model.set_cache sessionPre]. rewrite Hs.
  destruct (run_pre _) as [[] emb]; cbn; [discriminate|by intros [= <-]].
Qed.

Lemma postprocess_fault {rt : Runtime} outs m f :
  Model.postprocess outs m = Raise f -> construction_fault f = false.
Proof.
  unfold Model.postprocess. run_R.
  destruct (Vec.at_ outputTensorsSam_buf outs 1) as [masks|e] eqn:E1.
  2: { apply Vec_at_raise in E1. subst. by intros [= <-]. }
  destruct (Vec.at_ maskShape_buf (Ort.t_shape masks) 2) as [r|e] eqn:E2.
  2: { apply Vec_at_raise in E2. subst. by intros [= <-]. }
  destruct (Vec.at_ maskShape_buf (Ort.t_shape masks) 3) as [cl|e] eqn:E3.
  2: { apply Vec_at_raise in E3. subst. by intros [= <-]. }
  destruct (Model.resize_to _ _) as [logits|e] eqn:Er.
  2: { intros [= <-]. unfold Model.resize_to in Er.
       destruct (negb _); [|discriminate]. destruct (resize _ _); [discriminate|].
       by injection Er as <-. }
  destruct (Model.threshold_loops logits m) as [mask|e] eqn:El.
  2: { intros [= <-]. revert El. unfold Model.threshold_loops.
       apply (for_lt_raise (fun f => construction_fault f = false)); [done|].
       intros i t g. apply (for_lt_raise (fun f => construction_fault f = false)); [done|].
       intros j u h. unfold Model.threshold_pixel, Cv.at_float, Cv.set_u8. run_R.
       destruct (Vec.at_ outputMaskImage_buf _ _) eqn:Ea.
       - destruct (Vec.set outputMaskSam_buf _ _ _) eqn:Es; [discriminate|].
         apply Vec_set_raise in Es. subst. by intros [= <-].
       - apply Vec_at_raise in Ea. subst. by intros [= <-]. }
  destruct (Vec.at_ outputTensorsSam_buf outs 0) as [scores|e] eqn:E0.
  2: { apply Vec_at_raise in E0. subst. by intros [= <-]. }
  destruct (Vec.at_ scores_buf _ 0) as [iou|e] eqn:Ei; [discriminate|].
  apply Vec_at_raise in Ei. subst. by intros [= <-].
Qed.

Lemma getMask_fault {rt : Runtime} points negativePoints roi out w n c H W s f :
  inputShapePre (self w) = [n; c; H; W] ->
  sessionSam (self w) = Some s ->
  fst (Model.getMask points negativePoints roi out w) = Raise f ->
  construction_fault f = false.
Proof.
  intros Hshape Hs. unfold Model.getMask. run_M. rewrite Hshape. shape_reads.
  destruct (Model.encode points negativePoints roi) as [pv lv].
  unfold Model.CreateTensor.
  destruct (tensor_ok _); [|by intros [= <-]].
  destruct (tensor_ok _); [|by intros [= <-]].
  destruct (tensor_ok _); [|by intros [= <-]].
  assert (Hmask : forall e,
    (if negb (Cv.is_8UC1 out) || negb (bool_decide (Cv.size out = Cv.mkSize W H))
     then Cv.create_8UC1 (Int.to_int H) (Int.to_int W) else Val out) = Raise e ->
    e = CvException).
  { intros e. destruct (_ || _); [|discriminate].
    unfold Cv.create_8UC1. case_decide; congruence. }
  destruct (if _ || _ then _ else _) as [mask0|e]; [|rewrite (Hmask e eq_refl); by intros [= <-]].
  unfold Model.Run_sam. rewrite Hs.
  destruct (run_sam _) as [outs|]; cbn [fst]; [|by intros [= <-]].
  apply postprocess_fault.
Qed.





(** The three planes are written whatever the model declares: with a
    one-plane input shape the second write of the first pixel is past
    the end of the tensor buffer. *)
Example loadImage_single_plane_out_of_bounds :
  Model.preprocess [1; 1; 2; 2] Fixture.imageA = Raise (OutOfBounds inputTensorValuesFloat_buf).
Proof. vm_compute. reflexivity. Qed.

(* ===================================================================== *)
(** * Further properties of the code *)

(** ** The constructor *)

(** X1: the loaded flag is set exactly when both model files are there,
    both sessions open, the encoder has one input and one output, the
    decoder has three inputs, and the encoder's declared input and
    output shapes have rank four.  Nothing else is looked at: not the
    decoder's outputs, not the thread count. *)
Theorem new_loaded_iff {rt : Runtime} param :
  (exists m, Model.new param = Val m /\ bModelLoaded m = true) <->
  file_good (fst (models param)) = true /\ file_good (snd (models param)) = true /\
  exists pre sam,
    open_session (fst (models param)) = Some pre /\
    open_session (snd (models param)) = Some sam /\
    Ort.GetInputCount pre = 1 /\ Ort.GetOutputCount pre = 1 /\
    Ort.GetInputCount sam = 3 /\
    length (Ort.InputShape0 pre) = 4%nat /\ length (Ort.OutputShape0 pre) = 4%nat.
Proof.
  unfold Model.new, Model.files_found. split.
  - intros (m & Hnew & Hloaded). revert Hnew.
    destruct (file_good (fst (models param))); cbn [negb];
      [|intros [= <-]; discriminate].
    destruct (file_good (snd (models param))); cbn [negb];
      [|intros [= <-]; discriminate].
    destruct (open_session (fst (models param))) as [pre|]; [|discriminate].
    destruct (Z.eqb_spec (Ort.GetInputCount pre) 1); cbn [negb orb];
      [|intros [= <-]; discriminate].
    destruct (Z.eqb_spec (Ort.GetOutputCount pre) 1); cbn [negb];
      [|intros [= <-]; discriminate].
    destruct (open_session (snd (models param))) as [sam|]; [|discriminate].
    destruct (Z.eqb_spec (Ort.GetInputCount sam) 3); cbn [negb];
      [|intros [= <-]; discriminate].
    unfold Vec.size.
    destruct (Z.eqb_spec (Z.of_nat (length (Ort.InputShape0 pre))) 4); cbn [negb orb];
      [|intros [= <-]; discriminate].
    destruct (Z.eqb_spec (Z.of_nat (length (Ort.OutputShape0 pre))) 4); cbn [negb];
      [|intros [= <-]; discriminate].
    intros _. repeat split. exists pre, sam. repeat split; try done; lia.
  - intros (H0 & H1 & pre & sam & Hpre & Hsam & Hi & Ho & Hs & Hli & Hlo).
    rewrite H0, H1, Hpre, Hsam, Hi, Ho, Hs. unfold Vec.size. rewrite Hli, Hlo.
    cbn. eexists. split; reflexivity.
Qed.

Lemma new_raise_OrtException {rt : Runtime} param f :
  Model.new param = Raise f -> f = OrtException.
Proof.
  unfold Model.new.
  destruct (negb (Model.files_found _)); [discriminate|].
  destruct (open_session (fst (models param))) as [pre|]; [|by intros [= <-]].
  destruct (_ || _); [discriminate|].
  destruct (open_session (snd (models param))) as [sam|]; [|by intros [= <-]].
  destruct (negb _); [discriminate|]. destruct (_ || _); discriminate.
Qed.

(** X2: a missing model file never raises: whichever of the two files
    is missing, the object is left as its initialisers made it, with no
    session, the encoder's included.  The constructor ends in an
    exception only when a session constructor throws, and the decoder's
    session is created only after the encoder passed its count check. *)
Theorem new_failures {rt : Runtime} param :
  (file_good (fst (models param)) = false \/ file_good (snd (models param)) = false ->
     Model.new param = Val Model.initial) /\
  (forall f, Model.new param = Raise f ->
     f = OrtException /\
     file_good (fst (models param)) = true /\ file_good (snd (models param)) = true /\
     (open_session (fst (models param)) = None \/
      exists pre, open_session (fst (models param)) = Some pre /\
        Ort.GetInputCount pre = 1 /\ Ort.GetOutputCount pre = 1 /\
        open_session (snd (models param)) = None)).
Proof.
  unfold Model.new, Model.files_found. split.
  - intros [H|H].
    + by rewrite H.
    + rewrite H. by destruct (file_good (fst (models param))).
  - intros f.
    destruct (file_good (fst (models param))); cbn [negb]; [|discriminate].
    destruct (file_good (snd (models param))); cbn [negb]; [|discriminate].
    destruct (open_session (fst (models param))) as [pre|].
    2: { intros [= <-]. auto. }
    destruct (Z.eqb_spec (Ort.GetInputCount pre) 1); cbn [negb orb]; [|discriminate].
    destruct (Z.eqb_spec (Ort.GetOutputCount pre) 1); cbn [negb]; [|discriminate].
    destruct (open_session (snd (models param))) as [sam|].
    2: { intros [= <-]. repeat split; try done. right. by exists pre. }
    destruct (negb _); [discriminate|]. destruct (_ || _); discriminate.
Qed.

Lemma new_failures_witness :
  @Model.new Fixture.strict Fixture.param_missing = Val Model.initial.
Proof.
  apply (proj1 (@new_failures Fixture.strict Fixture.param_missing)).
  right. reflexivity.
Defined.

(** ** The prompt *)

(** X8: the number of encoded points is the number of positive points
    plus the number of negative points plus two for a non-empty box,
    and the coordinate array has twice as many entries; so, while twice
    that number fits in [int], the element counts given to
    [CreateTensor] (the [int] product [2 * numPoints] and [numPoints],
    both converted to [size_t]) are the lengths of the two buffers. *)
Theorem encode_counts points negativePoints roi :
  let enc := Model.encode points negativePoints roi in
  let N := Vec.size (snd enc) in
  N = Vec.size points + Vec.size negativePoints + (if Cv.empty roi then 0 else 2) /\
  Vec.size (fst enc) = 2 * N /\
  (2 * N <= Int.INT_MAX ->
     let numPoints := Int.to_int N in
     Int.to_size_t (Int.to_int (2 * numPoints)) = Vec.size (fst enc) /\
     Int.to_size_t numPoints = Vec.size (snd enc)).
Proof.
  cbn zeta.
  assert (HN : Vec.size (snd (Model.encode points negativePoints roi)) =
               Vec.size points + Vec.size negativePoints + (if Cv.empty roi then 0 else 2)).
  { rewrite encode_contract. cbn [snd]. unfold Contract.labels, Contract.box_of, Vec.size.
    rewrite !length_app, !length_map. destruct (Cv.empty roi); cbn [length]; lia. }
  assert (H2 : Vec.size (fst (Model.encode points negativePoints roi)) =
               2 * Vec.size (snd (Model.encode points negativePoints roi))).
  { unfold Vec.size. rewrite encode_lengths. lia. }
  split; [done|]. split; [done|]. intros Hfit.
  assert (H0 : 0 <= Vec.size (snd (Model.encode points negativePoints roi)))
    by (unfold Vec.size; lia).
  rewrite (to_int_fits (Vec.size _))
    by (unfold Int.fits, Int.INT_MIN, Int.INT_MAX in *; lia).
  rewrite to_int_fits by (unfold Int.fits, Int.INT_MIN, Int.INT_MAX in *; lia).
  rewrite !to_size_t_small by (unfold Int.INT_MAX in *; lia).
  split; [lia|done].
Qed.

Lemma encode_counts_witness :
  Int.to_size_t (Int.to_int (2 * Int.to_int (Vec.size
    (snd (Model.encode [Fixture.p1; Fixture.p2] [Fixture.n1] Fixture.box))))) =
  Vec.size (fst (Model.encode [Fixture.p1; Fixture.p2] [Fixture.n1] Fixture.box)).
Proof.
  destruct (encode_counts [Fixture.p1; Fixture.p2] [Fixture.n1] Fixture.box)
    as (_ & _ & Hfit).
  apply Hfit. vm_compute. discriminate.
Defined.

(** X9: the threshold looks at the sign only.  A logit is foreground
    exactly when it is positive, finite or infinite; zero of either
    sign, every negative value and NaN are background. *)
Theorem gt0_sign (x : F32.float) :
  F32.gt0 x = true <-> x = S754_infinity false \/ exists m e, x = S754_finite false m e.
Proof.
  destruct x as [s|s| |s m e]; cbn.
  - split; [discriminate|]. intros [|(?&?&?)]; discriminate.
  - destruct s; cbn; split; try discriminate; auto.
    intros [|(?&?&?)]; discriminate.
  - split; [discriminate|]. intros [|(?&?&?)]; discriminate.
  - destruct s; cbn; split; try discriminate; eauto.
    intros [|(?&?&[=])]; discriminate.
Qed.

(** X7: [getMask] sees its rectangle only through the encoding, so any
    empty rectangle, whatever its position, gives the same result, the
    same decoder call and the same state as the default rectangle; the
    two overloads without a rectangle are [getMask] with it. *)
Theorem getMask_empty_roi {rt : Runtime} points negativePoints roi out w :
  Cv.empty roi = true ->
  Model.getMask points negativePoints roi out w =
    Model.getMask points negativePoints Cv.Rect0 out w /\
  Sam.getMask points negativePoints roi w = Sam.getMask_points points negativePoints w /\
  (forall point, Sam.getMask_point point w = Sam.getMask [point] [] roi w).
Proof.
  intros Hroi.
  assert (Henc : forall ps ns, Model.encode ps ns roi = Model.encode ps ns Cv.Rect0).
  { intros ps ns. rewrite !encode_contract. unfold Contract.box_of. by rewrite Hroi. }
  assert (Hrun : forall ps ns o,
    Model.getMask ps ns roi o w = Model.getMask ps ns Cv.Rect0 o w).
  { intros ps ns o. unfold Model.getMask. by rewrite Henc. }
  split; [apply Hrun|]. split.
  - unfold Sam.getMask_points, Sam.getMask. apply Hrun.
  - intros point. unfold Sam.getMask_point, Sam.getMask. symmetry. apply Hrun.
Qed.

Lemma getMask_empty_roi_witness :
  @Model.getMask Fixture.strict [Fixture.p1] [] Fixture.flat_box Cv.Mat0 Fixture.worldA =
  @Model.getMask Fixture.strict [Fixture.p1] [] Cv.Rect0 Cv.Mat0 Fixture.worldA.
Proof.
  exact (proj1 (@getMask_empty_roi Fixture.strict [Fixture.p1] [] Fixture.flat_box Cv.Mat0
                  Fixture.worldA eq_refl)).
Defined.

(** ** [loadImage] *)

(** X12: when the width or the height the model declares is negative
    after narrowing to [int], as a dynamic dimension -1 is, [loadImage]
    rejects every image: no matrix has a negative size. *)
Theorem loadImage_dynamic_shape {rt : Runtime} image w n c H W :
  inputShapePre (self w) = [n; c; H; W] ->
  Int.to_int H < 0 \/ Int.to_int W < 0 ->
  0 <= Cv.rows image -> 0 <= Cv.cols image ->
  Model.loadImage image w = (Val false, w).
Proof.
  intros Hshape Hneg Hr Hc. apply (loadImage_rejects image w n c H W Hshape).
  left. unfold Cv.size, Cv.mkSize. intros [= Hw Hh]. lia.
Qed.

Lemma loadImage_dynamic_shape_witness :
  @Model.loadImage Fixture.strict Fixture.imageA HostFixture.dynamic_world =
    (Val false, HostFixture.dynamic_world).
Proof.
  apply (@loadImage_dynamic_shape Fixture.strict Fixture.imageA HostFixture.dynamic_world
           1 3 (-1) 2 eq_refl).
  - left. vm_compute. reflexivity.
  - vm_compute. discriminate.
  - vm_compute. discriminate.
Defined.

(** X4: what [loadImage] answers and the embedding it leaves depend on
    the image, the shapes and the encoder session only: not on the
    embedding that was cached before, nor on earlier calls.  After a
    load that returned true the cache is the same whatever was loaded
    before. *)
Theorem loadImage_forgets_history {rt : Runtime} image w1 w2 :
  inputShapePre (self w1) = inputShapePre (self w2) ->
  outputShapePre (self w1) = outputShapePre (self w2) ->
  sessionPre (self w1) = sessionPre (self w2) ->
  fst (Model.loadImage image w1) = fst (Model.loadImage image w2) /\
  (fst (Model.loadImage image w1) = Val true ->
     outputTensorValuesPre (self (snd (Model.loadImage image w1))) =
     outputTensorValuesPre (self (snd (Model.loadImage image w2)))).
Proof.
  intros Hi Ho Hs. unfold Model.loadImage. run_M. rewrite Hi, Ho.
  destruct (Vec.at_ inputShapePre_buf (inputShapePre (self w2)) 3); [|done].
  destruct (Vec.at_ inputShapePre_buf (inputShapePre (self w2)) 2); [|done].
  destruct (negb (bool_decide _)); [done|].
  destruct (negb (Cv.channels image =? 3)); [done|].
  destruct (Model.preprocess _ _); [|done].
  destruct (Model.CreateTensor _ _ _); [|done].
  destruct (Vec.at_ outputShapePre_buf (outputShapePre (self w2)) 0); [|done].
  destruct (Vec.at_ outputShapePre_buf (outputShapePre (self w2)) 1); [|done].
  destruct (Vec.at_ outputShapePre_buf (outputShapePre (self w2)) 2); [|done].
  destruct (Vec.at_ outputShapePre_buf (outputShapePre (self w2)) 3); [|done].
  destruct (Vec.make _); [|done].
  destruct (Model.CreateTensor _ _ _); [|done].
  unfold Model.Run_pre. cbn [self ort_log Model.set_cache sessionPre]. rewrite Hs.
  destruct (sessionPre (self w2)); [|done].
  destruct (run_pre _) as [[] emb]; cbn; done.
Qed.

Lemma loadImage_forgets_history_witness :
  outputTensorValuesPre
    (self (snd (@Model.loadImage Fixture.strict Fixture.imageA Fixture.worldA))) =
  outputTensorValuesPre (self Fixture.worldA).
Proof.
  apply (@loadImage_forgets_history Fixture.strict Fixture.imageA Fixture.worldA
           Fixture.world0 eq_refl eq_refl eq_refl).
  vm_compute. reflexivity.
Defined.

(** X5: the protection of the cached embedding ends with the two
    checks.  If the runtime refuses the input tensor, [loadImage]
    leaves by its exception with the object untouched; if it refuses
    the output tensor, the cache has already been replaced by a buffer
    of zeros, as long as the output shape's product: the embedding of
    the previous image is lost although no run took place. *)
Theorem loadImage_refused_tensor {rt : Runtime} image w n c H W o0 o1 o2 o3 t :
  inputShapePre (self w) = [n; c; H; W] ->
  outputShapePre (self w) = [o0; o1; o2; o3] ->
  0 <= o0 * o1 * o2 * o3 ->
  Cv.size image = Cv.mkSize W H -> Cv.channels image = 3 ->
  Model.preprocess [n; c; H; W] image = Val t ->
  let input := {| Ort.t_data := t; Ort.t_count := Vec.size t; Ort.t_shape := [n; c; H; W] |} in
  let buf := replicate (Z.to_nat (o0 * o1 * o2 * o3)) F32.zero in
  let output := {| Ort.t_data := buf; Ort.t_count := Vec.size buf;
                   Ort.t_shape := [o0; o1; o2; o3] |} in
  (tensor_ok input = false -> Model.loadImage image w = (Raise OrtException, w)) /\
  (tensor_ok input = true -> tensor_ok output = false ->
     Model.loadImage image w =
       (Raise OrtException,
        {| self := Model.set_cache (self w) buf; ort_log := ort_log w |})).
Proof.
  intros Hshape Hoshape Hprod Hsize Hch Hpre input buf output.
  unfold Model.loadImage. run_M. rewrite Hshape, Hoshape. shape_reads.
  rewrite bool_decide_true by done. rewrite Hch. cbn [negb Z.eqb Pos.eqb].
  rewrite Hpre. unfold Model.CreateTensor. subst input output buf.
  rewrite Vec_make_Val by done. split.
  - intros Hin. rewrite Hin. reflexivity.
  - intros Hin Hout. rewrite Hin, Hout. reflexivity.
Qed.

Lemma loadImage_refused_tensor_witness :
  @Model.loadImage HostFixture.refuse_all Fixture.imageA Fixture.worldA =
    (Raise OrtException, Fixture.worldA) /\
  outputTensorValuesPre
    (self (snd (@Model.loadImage HostFixture.refuse_output Fixture.imageA Fixture.worldA))) =
    [F32.zero; F32.zero].
Proof.
  split.
  - eapply (proj1 (@loadImage_refused_tensor HostFixture.refuse_all Fixture.imageA
                     Fixture.worldA 1 3 2 2 1 2 1 1 _ eq_refl eq_refl
                     ltac:(lia) eq_refl eq_refl eq_refl)).
    reflexivity.
  - erewrite (proj2 (@loadImage_refused_tensor HostFixture.refuse_output Fixture.imageA
                       Fixture.worldA 1 3 2 2 1 2 1 1 _ eq_refl eq_refl
                       ltac:(lia) eq_refl eq_refl eq_refl));
      reflexivity.
Defined.

(** ** Sequences of calls *)

Lemma loadImage_log_cases {rt : Runtime} image w :
  let w' := snd (Model.loadImage image w) in
  ort_log w' = ort_log w \/
  exists call, Session.encoder_call (self w) call /\ ort_log w' = ort_log w ++ [call].
Proof.
  unfold Model.loadImage. run_M.
  destruct (Vec.at_ inputShapePre_buf (inputShapePre (self w)) 3); [|auto].
  destruct (Vec.at_ inputShapePre_buf (inputShapePre (self w)) 2); [|auto].
  destruct (negb (bool_decide _)); [auto|].
  destruct (negb (Cv.channels image =? 3)); [auto|].
  destruct (Model.preprocess _ _) as [t|]; [|auto].
  unfold Model.CreateTensor.
  destruct (tensor_ok {| Ort.t_data := t; Ort.t_count := _; Ort.t_shape := _ |}); [|auto].
  destruct (Vec.at_ outputShapePre_buf (outputShapePre (self w)) 0); [|auto].
  destruct (Vec.at_ outputShapePre_buf (outputShapePre (self w)) 1); [|auto].
  destruct (Vec.at_ outputShapePre_buf (outputShapePre (self w)) 2); [|auto].
  destruct (Vec.at_ outputShapePre_buf (outputShapePre (self w)) 3); [|auto].
  destruct (Vec.make _) as [buf|]; [|auto].
  destruct (tensor_ok _); [|cbn; auto].
  unfold Model.Run_pre. cbn [self ort_log Model.set_cache sessionPre].
  destruct (sessionPre (self w)) as [s|] eqn:Hs; [|cbn; auto].
  right. eexists. split.
  - exists s, t, buf. split; [done|reflexivity].
  - destruct (run_pre _) as [[] emb]; reflexivity.
Qed.

Lemma getMask_log_shape {rt : Runtime} points negativePoints roi out w :
  let w' := snd (Model.getMask points negativePoints roi out w) in
  ort_log w' = ort_log w \/
  exists call, Session.decoder_call (self w) call /\ ort_log w' = ort_log w ++ [call].
Proof.
  unfold Model.getMask. run_M.
  destruct (Vec.at_ inputShapePre_buf (inputShapePre (self w)) 2); [|auto].
  destruct (Vec.at_ inputShapePre_buf (inputShapePre (self w)) 3); [|auto].
  destruct (Model.encode points negativePoints roi) as [pv lv].
  unfold Model.CreateTensor.
  destruct (tensor_ok _); [|auto].
  destruct (tensor_ok _); [|auto].
  destruct (tensor_ok _); [|auto].
  destruct (if _ || _ then _ else _) as [mask0|]; [|auto].
  unfold Model.Run_sam. destruct (sessionSam (self w)) as [s|] eqn:Hs; [|auto].
  right. eexists. split.
  - exists s, (outputTensorValuesPre (self w)), pv, lv, (Int.to_int (Vec.size lv)).
    split; [done|reflexivity].
  - destruct (run_sam _); reflexivity.
Qed.

(** X3: over any sequence of facade calls, whatever their outcomes,
    the shapes, the two sessions and the loaded flag stay what the
    constructor made them; each call makes at most one call of the
    runtime; and every call of the runtime is either an embedding run
    on the encoder session, with one input of the declared input shape
    and one output of the declared output shape, or a decoder run on
    the decoder session with exactly three inputs of shapes
    output-shape, 1 x N x 2 and 1 x N. *)
Theorem session_invariant {rt : Runtime} ops w :
  let w' := Session.run ops w in
  inputShapePre (self w') = inputShapePre (self w) /\
  outputShapePre (self w') = outputShapePre (self w) /\
  sessionPre (self w') = sessionPre (self w) /\
  sessionSam (self w') = sessionSam (self w) /\
  bModelLoaded (self w') = bModelLoaded (self w) /\
  exists calls,
    ort_log w' = ort_log w ++ calls /\
    (length calls <= length ops)%nat /\
    Forall (fun call => Session.encoder_call (self w) call \/
                        Session.decoder_call (self w) call) calls.
Proof.
  cbn zeta. revert w. induction ops as [|op ops IH]; intros w.
  - cbn. repeat split. exists []. rewrite app_nil_r.
    split; [done|]. split; [cbn; lia|constructor].
  - cbn [Session.run fold_left]. fold (Session.run ops (Session.step w op)).
    destruct (IH (Session.step w op)) as (Hi & Ho & Hp & Hs & Hb & calls & Hlog & Hlen & Hall).
    assert (Hstep :
      inputShapePre (self (Session.step w op)) = inputShapePre (self w) /\
      outputShapePre (self (Session.step w op)) = outputShapePre (self w) /\
      sessionPre (self (Session.step w op)) = sessionPre (self w) /\
      sessionSam (self (Session.step w op)) = sessionSam (self w) /\
      bModelLoaded (self (Session.step w op)) = bModelLoaded (self w) /\
      (ort_log (Session.step w op) = ort_log w \/
       exists call, (Session.encoder_call (self w) call \/ Session.decoder_call (self w) call) /\
                    ort_log (Session.step w op) = ort_log w ++ [call])).
    { destruct op as [|image|points negativePoints roi]; cbn [Session.step].
      - unfold Sam.getInputSize. run_M.
        destruct (Model.getInputSize (self w)); cbn; auto 10.
      - unfold Sam.loadImage.
        destruct (loadImage_preserves image w) as (? & ? & ? & ? & ?).
        repeat split; try done.
        destruct (loadImage_log_cases image w) as [|(call & ? & ?)]; [by left|].
        right. exists call. auto.
      - unfold Sam.getMask.
        destruct (getMask_log_cases points negativePoints roi Cv.Mat0 w) as [Hself _].
        rewrite Hself. repeat split; try done.
        destruct (getMask_log_shape points negativePoints roi Cv.Mat0 w)
          as [|(call & ? & ?)]; [by left|].
        right. exists call. auto. }
    destruct Hstep as (Hi' & Ho' & Hp' & Hs' & Hb' & Hlog').
    assert (Hcalls : forall call,
      Session.encoder_call (self (Session.step w op)) call \/
      Session.decoder_call (self (Session.step w op)) call ->
      Session.encoder_call (self w) call \/ Session.decoder_call (self w) call).
    { unfold Session.encoder_call, Session.decoder_call.
      rewrite Hi', Ho', Hp', Hs'. done. }
    repeat split; try congruence.
    destruct Hlog' as [Hsame|(call & Hcall & Hone)].
    + exists calls. rewrite Hlog, Hsame. split; [done|]. split; [cbn; lia|].
      eapply Forall_impl; [exact Hall|]. exact Hcalls.
    + exists (call :: calls). rewrite Hlog, Hone, <- app_assoc.
      split; [done|]. split; [cbn; lia|].
      constructor; [done|]. eapply Forall_impl; [exact Hall|]. exact Hcalls.
Qed.

(** ** Postprocessing *)

Lemma Vec_at_Val_inv {A} b (v : list A) i x :
  Vec.at_ b v i = Val x -> 0 <= i /\ v !! Z.to_nat i = Some x.
Proof.
  unfold Vec.at_. case_decide; [|discriminate].
  destruct (v !! Z.to_nat i); [|discriminate]. by intros [= ->].
Qed.




Lemma postprocess_inv {rt : Runtime} outs m mask iou :
  Model.postprocess outs m = Val (mask, iou) ->
  exists scores masks r cl logits,
    outs !! 0%nat = Some scores /\ outs !! 1%nat = Some masks /\
    Ort.t_shape masks !! 2%nat = Some r /\ Ort.t_shape masks !! 3%nat = Some cl /\
    Model.resize_to {| Cv.frows := Int.to_int r; Cv.fcols := Int.to_int cl;
                       Cv.fdata := Ort.t_data masks |} (Cv.size m) = Val logits /\
    Model.threshold_loops logits m = Val mask /\
    Ort.t_data scores !! 0%nat = Some iou.
Proof.
  unfold Model.postprocess. run_R.
  destruct (Vec.at_ outputTensorsSam_buf outs 1) as [masks|] eqn:E1; [|discriminate].
  destruct (Vec.at_ maskShape_buf (Ort.t_shape masks) 2) as [r|] eqn:E2; [|discriminate].
  destruct (Vec.at_ maskShape_buf (Ort.t_shape masks) 3) as [cl|] eqn:E3; [|discriminate].
  destruct (Model.resize_to _ _) as [logits|] eqn:Er; [|discriminate].
  destruct (Model.threshold_loops logits m) as [mask'|] eqn:El; [|discriminate].
  destruct (Vec.at_ outputTensorsSam_buf outs 0) as [scores|] eqn:E0; [|discriminate].
  destruct (Vec.at_ scores_buf (Ort.t_data scores) 0) as [iou'|] eqn:Ei; [|discriminate].
  intros [= <- <-].
  apply Vec_at_Val_inv in E0 as [_ E0], E1 as [_ E1], E2 as [_ E2], E3 as [_ E3], Ei as [_ Ei].
  by exists scores, masks, r, cl, logits.
Qed.



(** X10: of the decoder's mask tensor only the first plane is used.
    When the mask tensor already has the image's rows and columns, two
    decoder answers that agree on the first rows x columns logits and
    on the first score give the same mask and score, whatever their
    batch and channel dimensions, further planes, further scores and
    further outputs are. *)
Theorem postprocess_first_plane {rt : Runtime} s1 m1 r1 s2 m2 r2 mask0 b1 c1 b2 c2 R C iou :
  Ort.t_shape m1 = [b1; c1; R; C] -> Ort.t_shape m2 = [b2; c2; R; C] ->
  0 <= R <= Int.INT_MAX -> 0 <= C <= Int.INT_MAX ->
  Cv.rows mask0 = R -> Cv.cols mask0 = C ->
  Z.of_nat (length (Cv.data mask0)) = R * C ->
  Ort.t_data s1 !! 0%nat = Some iou -> Ort.t_data s2 !! 0%nat = Some iou ->
  R * C <= Vec.size (Ort.t_data m1) -> R * C <= Vec.size (Ort.t_data m2) ->
  take (Z.to_nat (R * C)) (Ort.t_data m1) = take (Z.to_nat (R * C)) (Ort.t_data m2) ->
  Model.postprocess (s1 :: m1 :: r1) mask0 = Model.postprocess (s2 :: m2 :: r2) mask0 /\
  exists mask, Model.postprocess (s1 :: m1 :: r1) mask0 = Val (mask, iou).
Proof.
  intros Hs1 Hs2 HR HC Hr Hc Hlen Hi1 Hi2 Hl1 Hl2 Htake.
  assert (Hfit : Int.to_int R = R /\ Int.to_int C = C).
  { split; apply to_int_fits; unfold Int.fits, Int.INT_MIN, Int.INT_MAX in *; lia. }
  destruct Hfit as [HfR HfC].
  assert (Hres : forall d,
    Model.resize_to {| Cv.frows := Int.to_int R; Cv.fcols := Int.to_int C; Cv.fdata := d |}
      (Cv.size mask0) =
    Val {| Cv.frows := Int.to_int R; Cv.fcols := Int.to_int C; Cv.fdata := d |}).
  { intros d. unfold Model.resize_to. rewrite bool_decide_true; [done|].
    unfold Cv.fsize, Cv.size. cbn. by rewrite HfR, HfC, Hr, Hc. }
  destruct (postprocess_val s1 m1 r1 mask0 b1 c1 R C iou _ R C Hs1 Hi1 (Hres _))
    as (k1 & Hp1 & Hch1 & Hr1 & Hc1 & Hn1 & Hpix1); try done.
  destruct (postprocess_val s2 m2 r2 mask0 b2 c2 R C iou _ R C Hs2 Hi2 (Hres _))
    as (k2 & Hp2 & Hch2 & Hr2 & Hc2 & Hn2 & Hpix2); try done.
  cbn [Cv.fdata] in Hpix1, Hpix2.
  assert (Hk : k1 = k2).
  { destruct k1 as [ch1 rw1 cl1 d1], k2 as [ch2 rw2 cl2 d2]. cbn in *.
    f_equal; try congruence.
    apply list_eq. intros k.
    destruct (decide (Z.of_nat k < R * C)) as [Hlt|Hge].
    - specialize (Hpix1 (Z.of_nat k)). specialize (Hpix2 (Z.of_nat k)).
      rewrite Nat2Z.id in Hpix1, Hpix2. rewrite Hpix1, Hpix2 by lia.
      assert (Hsame : Ort.t_data m1 !! k = Ort.t_data m2 !! k).
      { rewrite <- (lookup_take_lt (Ort.t_data m1) (Z.to_nat (R * C)) k) by lia.
        rewrite <- (lookup_take_lt (Ort.t_data m2) (Z.to_nat (R * C)) k) by lia.
        by rewrite Htake. }
      by rewrite Hsame.
    - rewrite !lookup_ge_None_2; [done|lia|lia]. }
  split; [|by exists k1]. rewrite Hp1, Hp2. by rewrite Hk.
Qed.

Lemma postprocess_first_plane_witness :
  exists mask,
    @Model.postprocess Fixture.strict
      [ {| Ort.t_data := [F32.of_int 1; F32.of_int 7]; Ort.t_count := 2;
           Ort.t_shape := [1; 2] |};
        {| Ort.t_data := [F32.of_int 1; F32.of_int (-1); F32.of_int 9];
           Ort.t_count := 3; Ort.t_shape := [3; 1; 1; 2] |} ]
      (Cv.blank_8UC1 1 2) = Val (mask, F32.of_int 1).
Proof.
  apply (@postprocess_first_plane Fixture.strict
           {| Ort.t_data := [F32.of_int 1; F32.of_int 7]; Ort.t_count := 2;
              Ort.t_shape := [1; 2] |}
           {| Ort.t_data := [F32.of_int 1; F32.of_int (-1); F32.of_int 9];
              Ort.t_count := 3; Ort.t_shape := [3; 1; 1; 2] |} []
           {| Ort.t_data := [F32.of_int 1]; Ort.t_count := 1; Ort.t_shape := [1; 1] |}
           {| Ort.t_data := [F32.of_int 1; F32.of_int (-1)]; Ort.t_count := 2;
              Ort.t_shape := [1; 1; 1; 2] |} []
           (Cv.blank_8UC1 1 2) 3 1 1 1 1 2 (F32.of_int 1));
    try reflexivity; unfold Int.INT_MAX; try lia; vm_compute; discriminate.
Defined.

Lemma getMask_val_log {rt : Runtime} points negativePoints roi out w mask iou :
  fst (Model.getMask points negativePoints roi out w) = Val (mask, iou) ->
  exists call outs scores masks,
    ort_log (snd (Model.getMask points negativePoints roi out w)) = ort_log w ++ [call] /\
    Session.decoder_call (self w) call /\
    run_sam call = Some outs /\
    outs !! 0%nat = Some scores /\ outs !! 1%nat = Some masks /\
    (4 <= length (Ort.t_shape masks))%nat /\
    Ort.t_data scores !! 0%nat = Some iou.
Proof.
  unfold Model.getMask. run_M.
  destruct (Vec.at_ inputShapePre_buf (inputShapePre (self w)) 2); [|discriminate].
  destruct (Vec.at_ inputShapePre_buf (inputShapePre (self w)) 3); [|discriminate].
  destruct (Model.encode points negativePoints roi) as [pv lv].
  unfold Model.CreateTensor.
  destruct (tensor_ok _); [|discriminate].
  destruct (tensor_ok _); [|discriminate].
  destruct (tensor_ok _); [|discriminate].
  destruct (if _ || _ then _ else _) as [mask0|]; [|discriminate].
  unfold Model.Run_sam. destruct (sessionSam (self w)) as [s|] eqn:Hs; [|discriminate].
  destruct (run_sam _) as [outs|] eqn:Hrun; cbn [fst snd ort_log]; [|discriminate].
  intros Hpost. apply postprocess_inv in Hpost
    as (scores & masks & r & cl & logits & H0 & H1 & H2 & H3 & _ & _ & Hiou).
  eexists _, outs, scores, masks. split; [reflexivity|]. split.
  - exists s, (outputTensorValuesPre (self w)), pv, lv, (Int.to_int (Vec.size lv)).
    split; [done|reflexivity].
  - split; [exact Hrun|]. repeat split; try done.
    apply lookup_lt_Some in H3. lia.
Qed.

(** X13: a mask is never returned without a run of the decoder.  When
    [getMask] returns, it made exactly one decoder call, the decoder
    answered with at least two tensors, the second of rank four or
    more, and the score returned is element 0 of the first tensor,
    passed through as it is. *)
Theorem getMask_returns_inv {rt : Runtime} points negativePoints roi out w mask iou :
  fst (Model.getMask points negativePoints roi out w) = Val (mask, iou) ->
  exists call outs scores masks,
    ort_log (snd (Model.getMask points negativePoints roi out w)) = ort_log w ++ [call] /\
    Session.decoder_call (self w) call /\
    run_sam call = Some outs /\
    outs !! 0%nat = Some scores /\ outs !! 1%nat = Some masks /\
    (4 <= length (Ort.t_shape masks))%nat /\
    Ort.t_data scores !! 0%nat = Some iou.
Proof. apply getMask_val_log. Qed.

Lemma getMask_returns_inv_witness :
  exists call,
    ort_log (snd (@Model.getMask Fixture.strict [Fixture.p1] [] Cv.Rect0 Cv.Mat0
                    Fixture.worldA)) = ort_log Fixture.worldA ++ [call].
Proof.
  destruct (@Model.getMask Fixture.strict [Fixture.p1] [] Cv.Rect0 Cv.Mat0 Fixture.worldA)
    as [[[mask iou]|f] w'] eqn:Hrun; [|vm_compute in Hrun; discriminate].
  destruct (@getMask_returns_inv Fixture.strict [Fixture.p1] [] Cv.Rect0 Cv.Mat0
              Fixture.worldA mask iou) as (call & _ & _ & _ & Hlog & _).
  - rewrite Hrun. reflexivity.
  - exists call. rewrite Hrun in Hlog. exact Hlog.
Defined.

(** ** The overlay of [main] *)

Arguments Main.scale_uchar : simpl never.
Arguments Main.factor : simpl never.

(** Scaling by the foreground factor 1.0 returns the byte. *)
Lemma scale_front (b : Byte.byte) : Main.scale_uchar b (Main.factor true) = b.
Proof. destruct b; vm_compute; reflexivity. Qed.

(** Scaling by the background factor 0.2 is division by 5, rounded to
    the nearest integer. *)
Lemma scale_back (b : Byte.byte) :
  Z.of_N (Byte.to_N (Main.scale_uchar b (Main.factor false))) =
  (Z.of_N (Byte.to_N b) + 2) / 5.
Proof. destruct b; vm_compute; reflexivity. Qed.

(** No product rounded here lies half-way between two integers, so the
    choice made for ties plays no part. *)
Lemma scale_no_tie (b : Byte.byte) (bFront : bool) :
  exists n sh,
    F32.to_frac (SFmul F32.prec32 F32.emax32 (F32.of_uchar b) (Main.factor bFront)) =
      Some (n, sh) /\
    2 * (n mod 2 ^ sh) <> 2 ^ sh.
Proof.
  destruct bFront, b;
    match goal with
    | |- exists n sh, F32.to_frac ?x = _ /\ _ =>
        let r := eval vm_compute in (F32.to_frac x) in
        match r with
        | Some (?n, ?sh) => exists n, sh; split; [vm_compute; reflexivity | vm_compute; discriminate]
        end
    end.
Qed.

Lemma set_Vec3b_val m i j k v :
  0 <= (i * Cv.cols m + j) * 3 + k < Z.of_nat (length (Cv.data m)) ->
  Main.set_Vec3b m i j k v =
    Val {| Cv.channels := Cv.channels m; Cv.rows := Cv.rows m; Cv.cols := Cv.cols m;
           Cv.data := <[Z.to_nat ((i * Cv.cols m + j) * 3 + k) := v]> (Cv.data m) |}.
Proof. intros Hk. unfold Main.set_Vec3b. rewrite Vec_set_Val by done. reflexivity. Qed.

(** X14: the overlay has the image's size and three channels; at every
    pixel where the mask is non-zero each channel is the image's, and
    where the mask is zero each channel is the image's divided by 5 and
    rounded to the nearest integer. *)
Theorem overlay_pixels image mask H W :
  0 <= H <= Int.INT_MAX -> 0 <= W <= Int.INT_MAX ->
  Cv.rows image = H -> Cv.cols image = W ->
  Z.of_nat (length (Cv.data image)) = H * W * 3 ->
  Cv.cols mask = W -> H * W <= Z.of_nat (length (Cv.data mask)) ->
  exists out,
    Main.overlay image mask = Val out /\
    Cv.channels out = 3 /\ Cv.rows out = H /\ Cv.cols out = W /\
    Z.of_nat (length (Cv.data out)) = H * W * 3 /\
    forall i j k, 0 <= i < H -> 0 <= j < W -> 0 <= k < 3 ->
      exists m v o,
        Cv.data mask !! Z.to_nat (i * W + j) = Some m /\
        Cv.data image !! Z.to_nat ((i * W + j) * 3 + k) = Some v /\
        Cv.data out !! Z.to_nat ((i * W + j) * 3 + k) = Some o /\
        Z.of_N (Byte.to_N o) =
          if Main.byte_pos m then Z.of_N (Byte.to_N v) else (Z.of_N (Byte.to_N v) + 2) / 5.
Proof.
  intros HH HW Hr Hc Hlen Hmc Hml.
  pose (expected := fun (m v : Byte.byte) => Main.scale_uchar v (Main.factor (Main.byte_pos m))).
  pose (P := fun (q : Z) (t : Cv.Mat) =>
    Cv.channels t = 3 /\ Cv.rows t = H /\ Cv.cols t = W /\
    Z.of_nat (length (Cv.data t)) = H * W * 3 /\
    forall p k, 0 <= p < q -> 0 <= k < 3 ->
      exists m v, Cv.data mask !! Z.to_nat p = Some m /\
        Cv.data image !! Z.to_nat (p * 3 + k) = Some v /\
        Cv.data t !! Z.to_nat (p * 3 + k) = Some (expected m v)).
  destruct (for_lt_grid P (fun i j => Main.overlay_pixel image mask i j) H W
              (Main.zeros_8UC3 (Cv.size image))) as (out & Hrun & Hout); [done|done| | |].
  - unfold P, Main.zeros_8UC3, Cv.size. cbn. rewrite length_replicate, Hr, Hc.
    repeat split; [nia|]. intros; lia.
  - intros i j t Hi Hj (Hch & Hrt & Hct & Hlt & Hpix).
    assert (Hq : 0 <= i * W + j < H * W) by nia.
    set (q := i * W + j) in *.
    destruct (lookup_lt_is_Some_2 (Cv.data mask) (Z.to_nat q)) as [m Hm]; [lia|].
    destruct (lookup_lt_is_Some_2 (Cv.data image) (Z.to_nat (q * 3 + 0))) as [v0 Hv0]; [lia|].
    destruct (lookup_lt_is_Some_2 (Cv.data image) (Z.to_nat (q * 3 + 1))) as [v1 Hv1]; [lia|].
    destruct (lookup_lt_is_Some_2 (Cv.data image) (Z.to_nat (q * 3 + 2))) as [v2 Hv2]; [lia|].
    eexists. split.
    { unfold Main.overlay_pixel, Cv.at_Vec3b. rewrite Hmc, Hc. fold q.
      rewrite (Vec_at_Val outputMaskSam_buf (Cv.data mask) q m) by (done || lia). run_R.
      rewrite (Vec_at_Val image_buf (Cv.data image) (q * 3 + 0) v0) by (done || lia).
      rewrite (Vec_at_Val image_buf (Cv.data image) (q * 3 + 1) v1) by (done || lia).
      rewrite (Vec_at_Val image_buf (Cv.data image) (q * 3 + 2) v2) by (done || lia).
      cbn beta iota.
      rewrite set_Vec3b_val by (rewrite Hct; fold q; lia). cbn beta iota.
      rewrite set_Vec3b_val
        by (cbn [Cv.cols Cv.data]; rewrite length_insert, Hct; fold q; lia).
      cbn beta iota.
      rewrite set_Vec3b_val
        by (cbn [Cv.cols Cv.data]; rewrite !length_insert, Hct; fold q; lia).
      cbn [Cv.channels Cv.rows Cv.cols Cv.data]. rewrite Hct. fold q. reflexivity. }
    unfold P. cbn [Cv.channels Cv.rows Cv.cols Cv.data]. rewrite !length_insert.
    repeat split; try done.
    intros p k Hp Hk.
    destruct (decide (p = q)) as [->|Hne].
    + exists m. assert (k = 0 \/ k = 1 \/ k = 2) as [-> | [-> | ->]] by lia.
      * exists v0. repeat split; try done.
        rewrite list_lookup_insert_ne by lia. rewrite list_lookup_insert_ne by lia.
        rewrite list_lookup_insert_eq by lia. reflexivity.
      * exists v1. repeat split; try done.
        rewrite list_lookup_insert_ne by lia.
        rewrite list_lookup_insert_eq by (rewrite length_insert; lia). reflexivity.
      * exists v2. repeat split; try done.
        rewrite list_lookup_insert_eq by (rewrite !length_insert; lia). reflexivity.
    + destruct (Hpix p k) as (m' & v' & ? & ? & ?); [lia|done|].
      exists m', v'. repeat split; try done.
      rewrite !list_lookup_insert_ne by lia. done.
  - exists out. destruct Hout as (Hch & Hro & Hco & Hlo & Hpix).
    unfold Main.overlay. rewrite Hr, Hc. repeat split; try done.
    intros i j k Hi Hj Hk. assert (Hq : 0 <= i * W + j < H * W) by nia.
    destruct (Hpix (i * W + j) k) as (m & v & Hm & Hv & Ho); [done|done|].
    exists m, v, (expected m v). repeat split; try done.
    unfold expected. destruct (Main.byte_pos m).
    + by rewrite scale_front.
    + apply scale_back.
Qed.

Lemma overlay_pixels_witness :
  exists out,
    Main.overlay Fixture.imageA
      {| Cv.channels := 1; Cv.rows := 2; Cv.cols := 2;
         Cv.data := [Byte.x00; Byte.xff; Byte.xff; Byte.x00] |} = Val out /\
    Z.of_nat (length (Cv.data out)) = 12.
Proof.
  destruct (overlay_pixels Fixture.imageA
              {| Cv.channels := 1; Cv.rows := 2; Cv.cols := 2;
                 Cv.data := [Byte.x00; Byte.xff; Byte.xff; Byte.x00] |} 2 2)
    as (out & Hrun & _ & _ & _ & Hlen & _).
  - unfold Int.INT_MAX; lia.
  - unfold Int.INT_MAX; lia.
  - reflexivity.
  - reflexivity.
  - reflexivity.
  - reflexivity.
  - vm_compute. discriminate.
  - exists out. split; [exact Hrun|exact Hlen].
Defined.

(** ** [main] *)

Lemma overlay_fault image mask f :
  Main.overlay image mask = Raise f -> construction_fault f = false.
Proof.
  unfold Main.overlay.
  apply (for_lt_raise (fun f => construction_fault f = false)); [done|].
  intros i t g. apply (for_lt_raise (fun f => construction_fault f = false)); [done|].
  intros j u h. unfold Main.overlay_pixel, Cv.at_Vec3b, Main.set_Vec3b. run_R.
  repeat match goal with
  | |- context [match Vec.at_ ?b ?v ?k with _ => _ end] =>
      let E := fresh "E" in
      destruct (Vec.at_ b v k) eqn:E;
        [|apply Vec_at_raise in E; subst; by intros [= <-]]
  | |- context [match Vec.set ?b ?v ?k ?x with _ => _ end] =>
      let E := fresh "E" in
      destruct (Vec.set b v k x) eqn:E;
        [|apply Vec_set_raise in E; subst; by intros [= <-]]
  end.
  discriminate.
Qed.

(** [getInputSize] never faults on an object the constructor returned. *)
Lemma getInputSize_constructed {rt : Runtime} param m :
  Model.new param = Val m ->
  (bModelLoaded m = false /\
     Model.getInputSize m = Val {| Cv.width := 0; Cv.height := 0 |}) \/
  (bModelLoaded m = true /\
   exists n c H W o0 o1 o2 o3 sp ss,
     inputShapePre m = [n; c; H; W] /\ outputShapePre m = [o0; o1; o2; o3] /\
     sessionPre m = Some sp /\ sessionSam m = Some ss /\
     outputTensorValuesPre m = [] /\
     Model.getInputSize m = Val (Cv.mkSize W H)).
Proof.
  intros Hnew. destruct (bModelLoaded m) eqn:Hl.
  - right. split; [done|].
    destruct (new_cases param m Hnew)
      as [(_ & pre & sam & _ & _ & Hsp & Hss & _ & _ & Hli & Hlo & Hc)
         |[(Hf & _)|(Hf & _)]]; [|congruence..].
    destruct (length4_inv _ Hli) as (n & c & H & W & Hshape).
    destruct (length4_inv _ Hlo) as (o0 & o1 & o2 & o3 & Hoshape).
    exists n, c, H, W, o0, o1, o2, o3. eexists _, _.
    repeat split; try done.
    unfold Model.getInputSize. rewrite Hl, Hshape. cbn [negb]. shape_reads. reflexivity.
  - left. split; [done|]. unfold Model.getInputSize. by rewrite Hl.
Qed.

(** [loadImage] answers false only at its two checks, before it
    changes anything. *)
Lemma loadImage_false_unchanged {rt : Runtime} image w w' :
  Model.loadImage image w = (Val false, w') -> w' = w.
Proof.
  unfold Model.loadImage. run_M.
  destruct (Vec.at_ inputShapePre_buf (inputShapePre (self w)) 3); [|discriminate].
  destruct (Vec.at_ inputShapePre_buf (inputShapePre (self w)) 2); [|discriminate].
  destruct (negb (bool_decide _)); [by intros [= <-]|].
  destruct (negb (Cv.channels image =? 3)); [by intros [= <-]|].
  destruct (Model.preprocess _ _); [|discriminate].
  destruct (Model.CreateTensor _ _ _); [|discriminate].
  destruct (Vec.at_ outputShapePre_buf (outputShapePre (self w)) 0); [|discriminate].
  destruct (Vec.at_ outputShapePre_buf (outputShapePre (self w)) 1); [|discriminate].
  destruct (Vec.at_ outputShapePre_buf (outputShapePre (self w)) 2); [|discriminate].
  destruct (Vec.at_ outputShapePre_buf (outputShapePre (self w)) 3); [|discriminate].
  destruct (Vec.make _); [|discriminate].
  destruct (Model.CreateTensor _ _ _); [|discriminate].
  unfold Model.Run_pre. cbn [self ort_log Model.set_cache sessionPre].
  destruct (sessionPre (self w)); [|discriminate].
  destruct (run_pre _) as [[] emb]; discriminate.
Qed.

(** The paths through [main], one goal for each way it ends. *)
Ltac main_paths argv :=
  unfold Main.main;
  destruct argv as [|prog [|path rest]]; [| |
    destruct (Main.Mat_empty (imread path)) eqn:Hempty; [|
      unfold Sam.new; run_R;
      destruct (Model.new Main.param) as [m|e] eqn:Hnew; [|];
      [ unfold Sam.getInputSize; run_M; cbn [self];
        destruct (Model.getInputSize m) as [sz|e] eqn:Hsz; [|];
        [ destruct (Main.Size_empty sz) eqn:Hse; [|
            destruct (resize8 (imread path) sz) as [image|] eqn:Hrs; [|];
            [ unfold Sam.loadImage;
              destruct (Model.loadImage image {| self := m; ort_log := [] |})
                as [[[]|e] w1] eqn:Hload; [| |];
              [ unfold Sam.getMask;
                destruct (Model.getMask [] [] Main.box Cv.Mat0 w1)
                  as [[[mask iou]|e] w2] eqn:Hmask; [|];
                [ destruct (Main.overlay image mask) as [out|e] eqn:Hov | ]
              | | ]
            | ] ]
        | ]
      | ] ] ];
  cbn [Main.exit Main.written Main.calls].

(** X15: [main] calls [loadImage] and [getMask] only on a session
    whose construction succeeded, so it never ends in a read past a
    shape vector or in a null session handle; the exceptions and faults
    left to it come from the runtime, from [cv::resize] and from buffer
    sizes. *)
Theorem main_guarded {rt : Runtime} {host : Host} argv f :
  Main.exit (Main.main argv) = Main.Crash f -> construction_fault f = false.
Proof.
  main_paths argv; try discriminate; intros [= <-]; try reflexivity.
  - (* the overlay *)
    by apply overlay_fault in Hov.
  - (* getMask *)
    destruct (getInputSize_constructed _ _ Hnew)
      as [(_ & Hz)|(_ & n & c & H & W & o0 & o1 & o2 & o3 & sp & ss & Hi & Ho & Hp & Hs & _)].
    { rewrite Hz in Hsz. injection Hsz as <-. discriminate. }
    destruct (loadImage_preserves image {| self := m; ort_log := [] |})
      as (Hi1 & _ & _ & Hs1 & _).
    rewrite Hload in Hi1, Hs1. cbn [snd self] in Hi1, Hs1.
    apply (getMask_fault [] [] Main.box Cv.Mat0 w1 n c H W ss); [congruence|congruence|].
    by rewrite Hmask.
  - (* loadImage *)
    destruct (getInputSize_constructed _ _ Hnew)
      as [(_ & Hz)|(_ & n & c & H & W & o0 & o1 & o2 & o3 & sp & ss & Hi & Ho & Hp & Hs & _)].
    { rewrite Hz in Hsz. injection Hsz as <-. discriminate. }
    apply (loadImage_fault image {| self := m; ort_log := [] |} n c H W o0 o1 o2 o3 sp);
      [done..|]. by rewrite Hload.
  - (* getInputSize *)
    destruct (getInputSize_constructed _ _ Hnew) as [(_ & Hz)|(_ & Hz)];
      [congruence|].
    destruct Hz as (n & c & H & W & o0 & o1 & o2 & o3 & sp & ss & _ & _ & _ & _ & _ & Hz).
    congruence.
  - (* the constructor *)
    by rewrite (new_raise_OrtException _ _ Hnew).
Qed.

Lemma main_guarded_witness :
  Main.exit (@Main.main HostFixture.refuse_all HostFixture.host ["prog"; "cat.png"]%string) =
    Main.Crash OrtException /\
  construction_fault OrtException = false.
Proof.
  split; [vm_compute; reflexivity|].
  apply (@main_guarded HostFixture.refuse_all HostFixture.host ["prog"; "cat.png"]%string).
  vm_compute. reflexivity.
Defined.

(** X16: what a run of [main] leaves behind.  When it returns -1 it
    has written no file and made no call of the runtime.  When it
    returns 0 it either had no image argument, and did nothing at all,
    or it constructed a loaded session, resized the image to the
    model's input size, made exactly one embedding run and then one
    decoder run with the prompt "no point, the box (0,0,1024,1024)",
    and wrote the mask first and the overlay of the resized image with
    that mask second. *)
Theorem main_outcomes {rt : Runtime} {host : Host} argv :
  let r := Main.main argv in
  (Main.exit r = Main.Return (-1) -> Main.written r = [] /\ Main.calls r = []) /\
  (Main.exit r = Main.Return 0 ->
     ((length argv < 2)%nat /\ Main.written r = [] /\ Main.calls r = []) \/
     exists prog path rest m sz image w1 mask iou w2 out c1 c2,
       argv = prog :: path :: rest /\
       Model.new Main.param = Val m /\ bModelLoaded m = true /\
       Model.getInputSize m = Val sz /\
       resize8 (imread path) sz = Some image /\
       Model.loadImage image {| self := m; ort_log := [] |} = (Val true, w1) /\
       Model.getMask [] [] Main.box Cv.Mat0 w1 = (Val (mask, iou), w2) /\
       Main.overlay image mask = Val out /\
       Main.written r = [("../output/mask.png"%string, mask);
                         ("../output/overlayImgMask.png"%string, out)] /\
       Main.calls r = [c1; c2] /\
       Session.encoder_call m c1 /\ Session.decoder_call m c2).
Proof.
  cbn zeta. split.
  - main_paths argv; try discriminate; intros _; try done.
    apply loadImage_false_unchanged in Hload. by subst w1.
  - main_paths argv; try discriminate; intros _.
    + left. cbn. split; [lia|done].
    + left. cbn. split; [lia|done].
    + right.
      destruct (getInputSize_constructed _ _ Hnew)
        as [(_ & Hz)|(Hl & n & c & H & W & o0 & o1 & o2 & o3 & sp & ss & Hi & Ho & Hp & Hs & _)].
      { rewrite Hz in Hsz. injection Hsz as <-. discriminate. }
      destruct (loadImage_true_inv image {| self := m; ort_log := [] |} w1 n c H W Hi Hload)
        as (t & s & output & _ & _ & _ & Hw1).
      destruct (loadImage_log_cases image {| self := m; ort_log := [] |}) as [Hsame|Hone].
      { rewrite Hload in Hsame. cbn [snd] in Hsame. rewrite Hw1 in Hsame. discriminate. }
      destruct Hone as (c1 & Hc1 & Hlog1). rewrite Hload in Hlog1. cbn [snd ort_log self] in *.
      destruct (getMask_val_log [] [] Main.box Cv.Mat0 w1 mask iou)
        as (c2 & outs & scores & masks & Hlog2 & Hc2 & _); [by rewrite Hmask|].
      rewrite Hmask in Hlog2. cbn [snd] in Hlog2.
      destruct (loadImage_preserves image {| self := m; ort_log := [] |})
        as (_ & Ho1 & _ & Hs1 & _).
      rewrite Hload in Ho1, Hs1. cbn [snd self] in Ho1, Hs1.
      exists prog, path, rest, m, sz, image, w1, mask, iou, w2, out, c1, c2.
      repeat split; try done.
      * rewrite Hlog2, Hlog1. reflexivity.
      * unfold Session.decoder_call in *. by rewrite <- Ho1, <- Hs1.
Qed.

Lemma main_outcomes_witness :
  Main.written (@Main.main Fixture.strict HostFixture.host ["prog"; "missing.png"]%string) = [] /\
  length (Main.calls (@Main.main Fixture.strict HostFixture.host ["prog"; "cat.png"]%string)) =
    2%nat.
Proof.
  split.
  - apply (proj1 (@main_outcomes Fixture.strict HostFixture.host ["prog"; "missing.png"]%string)).
    vm_compute. reflexivity.
  - destruct (proj2 (@main_outcomes Fixture.strict HostFixture.host ["prog"; "cat.png"]%string))
      as [(Hlen & _)|Hrun].
    + vm_compute. reflexivity.
    + cbn in Hlen. lia.
    + destruct Hrun as (prog & path & rest & m & sz & image & w1 & mask & iou & w2 & out
                        & c1 & c2 & _ & _ & _ & _ & _ & _ & _ & _ & _ & Hcalls & _).
      rewrite Hcalls. reflexivity.
Defined.

(** X17: with a host whose [imread] gives three-channel images and
    whose [cv::resize] returns the requested size and keeps the channel
    count, the image [main] hands to [loadImage] always passes its two
    checks: [main] returns -1 only when the image file could not be
    read or when [getInputSize] is empty, that is when construction
    failed or a declared spatial dimension is not positive. *)
Theorem main_load_never_rejected {rt : Runtime} {host : Host} prog path rest :
  (forall p, Main.Mat_empty (imread p) = false -> Cv.channels (imread p) = 3) ->
  (forall src dsize dst, resize8 src dsize = Some dst ->
     Cv.size dst = dsize /\ Cv.channels dst = Cv.channels src) ->
  Main.exit (Main.main (prog :: path :: rest)) = Main.Return (-1) ->
  Main.Mat_empty (imread path) = true \/
  exists m,
    Model.new Main.param = Val m /\
    (bModelLoaded m = false \/
     exists n c H W, inputShapePre m = [n; c; H; W] /\
       (Int.to_int W <= 0 \/ Int.to_int H <= 0)).
Proof.
  intros Hread Hresize. unfold Main.main.
  destruct (Main.Mat_empty (imread path)) eqn:Hempty; [by left|].
  unfold Sam.new. run_R.
  destruct (Model.new Main.param) as [m|e] eqn:Hnew; [|discriminate].
  unfold Sam.getInputSize. run_M. cbn [self].
  destruct (Model.getInputSize m) as [sz|e] eqn:Hsz; [|discriminate].
  destruct (getInputSize_constructed _ _ Hnew)
    as [(Hl & _)|(Hl & n & c & H & W & o0 & o1 & o2 & o3 & sp & ss & Hi & _ & _ & _ & _ & Hz)].
  { intros _. right. exists m. auto. }
  rewrite Hz in Hsz. injection Hsz as <-.
  destruct (Main.Size_empty (Cv.mkSize W H)) eqn:Hse.
  { intros _. right. exists m. split; [done|]. right. exists n, c, H, W. split; [done|].
    unfold Main.Size_empty, Cv.mkSize in Hse. cbn in Hse.
    apply orb_true_iff in Hse as [Hse|Hse]; apply Z.leb_le in Hse; auto. }
  destruct (resize8 (imread path) (Cv.mkSize W H)) as [image|] eqn:Hrs; [|discriminate].
  destruct (Hresize _ _ _ Hrs) as [Hsize Hch]. rewrite (Hread path Hempty) in Hch.
  unfold Sam.loadImage.
  destruct (Model.loadImage image {| self := m; ort_log := [] |}) as [[[]|e] w1] eqn:Hload;
    cbn [Main.exit].
  - unfold Sam.getMask.
    destruct (Model.getMask [] [] Main.box Cv.Mat0 w1) as [[[mask iou]|e] w2]; [|discriminate].
    destruct (Main.overlay image mask); discriminate.
  - exfalso.
    apply (loadImage_valid_not_false image {| self := m; ort_log := [] |} n c H W Hi Hsize Hch).
    by rewrite Hload.
  - discriminate.
Qed.

Lemma main_load_never_rejected_witness :
  Main.Mat_empty (imread (Host := HostFixture.host) "missing.png") = true.
Proof.
  destruct (@main_load_never_rejected Fixture.strict HostFixture.host
              "prog"%string "missing.png"%string []) as [Hempty|(m & Hnew & Hbad)].
  - intros p. unfold imread, HostFixture.host, HostFixture.read.
    destruct (String.eqb p "missing.png"); [discriminate|reflexivity].
  - intros src dsize dst. unfold resize8, HostFixture.host, HostFixture.repeat_pixel.
    destruct (Cv.data src !! 0%nat); [|discriminate].
    destruct (Cv.data src !! 1%nat); [|discriminate].
    destruct (Cv.data src !! 2%nat); [|discriminate].
    intros [= <-]. destruct dsize. split; reflexivity.
  - vm_compute. reflexivity.
  - exact Hempty.
  - vm_compute in Hnew. injection Hnew as <-.
    destruct Hbad as [Hl|(n & c & H & W & Hshape & Hneg)]; [discriminate|].
    cbn in Hshape. injection Hshape as <- <- <- <-. vm_compute in Hneg.
    destruct Hneg as [Hneg|Hneg]; exfalso; by apply Hneg.
Defined.

(** ** Normalisation *)

Lemma all_bytes_complete (b : Byte.byte) :
  existsb (Byte.eqb b) (map (fun n => default Byte.x00 (Byte.of_N (N.of_nat n))) (seq 0 256)) =
  true.
Proof. destruct b; vm_compute; reflexivity. Qed.

(** X18: the normalisation of [loadImage] is strictly increasing in
    the pixel value: a brighter pixel gives a greater tensor value, so
    the 256 pixel values give 256 different floats and no two are
    merged by the division and the two roundings. *)
Theorem div255_strictly_increasing (a b : Byte.byte) :
  (Byte.to_N a < Byte.to_N b)%N ->
  SFltb (F32.div255 (F32.of_uchar a)) (F32.div255 (F32.of_uchar b)) = true.
Proof.
  set (all := map (fun n => default Byte.x00 (Byte.of_N (N.of_nat n))) (seq 0 256)).
  set (table := map (fun x => (x, F32.div255 (F32.of_uchar x))) all).
  assert (Hcheck :
    forallb (fun p => forallb (fun q =>
      implb (Byte.to_N (fst p) <? Byte.to_N (fst q))%N (SFltb (snd p) (snd q))) table) table =
    true) by (vm_compute; reflexivity).
  assert (Hin : forall x : Byte.byte, In (x, F32.div255 (F32.of_uchar x)) table).
  { intros x. pose proof (all_bytes_complete x) as Hx. fold all in Hx.
    apply existsb_exists in Hx as (y & Hy & Heq).
    apply Byte.byte_dec_bl in Heq. subst y.
    apply (in_map (fun x => (x, F32.div255 (F32.of_uchar x)))). exact Hy. }
  intros Hlt.
  pose proof (proj1 (forallb_forall _ _) Hcheck _ (Hin a)) as Ha. cbn beta in Ha.
  pose proof (proj1 (forallb_forall _ _) Ha _ (Hin b)) as Hab. cbn [fst snd] in Hab.
  apply N.ltb_lt in Hlt. rewrite Hlt in Hab. exact Hab.
Qed.

Lemma div255_strictly_increasing_witness :
  SFltb (F32.div255 (F32.of_uchar Byte.x7f)) (F32.div255 (F32.of_uchar Byte.x80)) = true.
Proof.
  apply div255_strictly_increasing. vm_compute. reflexivity.
Defined.
